(** * r2-images: an image gateway in front of an R2 bucket

    A shallow embedding of the three handler variants of the repository

    - [Worker]      : src/index.ts, the Cloudflare Worker with the edge cache,
    - [PlainWorker] : the Worker without a cache (AWS S3 client),
    - [BunServer]   : the Bun/Node server (Bun S3 client),

    and the properties of the filename validator, the extension classifier
    and the request pipeline.

    File names are modelled as [string]: the validator only lets through
    names made of ASCII letters, digits, [_], [-] and [.], and every string
    method after the validator is applied to such names only. *)

From Stdlib Require Import ZArith NArith Ascii String DecimalString.
From stdpp Require Import gmap strings list fin_maps.

Local Open Scope Z_scope.

(** ** JavaScript string methods used by the handlers *)

Module JS.

(** [s.length] *)
Definition length (s : string) : Z := Z.of_nat (String.length s).

(** [s.includes(needle)]: some suffix of [s] starts with [needle]. *)
Fixpoint includes (needle s : string) : bool :=
  String.prefix needle s ||
  match s with
  | EmptyString => false
  | String _ s' => includes needle s'
  end.

(** [s.split(sep)] for a one-character separator: never the empty list. *)
Fixpoint split (sep : ascii) (s : string) : list string :=
  match s with
  | EmptyString => [EmptyString]
  | String c s' =>
      if Ascii.eqb c sep then EmptyString :: split sep s'
      else match split sep s' with
           | t :: ts => String c t :: ts
           | [] => [String c EmptyString]
           end
  end.

(** [s.lastIndexOf(c)]: the index of the last occurrence, [-1] if none.
    [i] is the index of the head of [s], [found] the last hit so far. *)
Fixpoint lastIndexOf_from (c : ascii) (s : string) (i found : Z) : Z :=
  match s with
  | EmptyString => found
  | String a s' =>
      lastIndexOf_from c s' (i + 1) (if Ascii.eqb a c then i else found)
  end.

Definition lastIndexOf (c : ascii) (s : string) : Z :=
  lastIndexOf_from c s 0 (-1).

(** Dropping the first [n] characters. *)
Fixpoint drop (n : nat) (s : string) : string :=
  match n, s with
  | O, _ => s
  | S _, EmptyString => EmptyString
  | S n', String _ s' => drop n' s'
  end.

(** [s.slice(start)]: a negative [start] counts from the end of the
    string, and is clamped to the string. *)
Definition slice (s : string) (start : Z) : string :=
  let len := length s in
  let from := if start <? 0 then Z.max (len + start) 0 else Z.min start len in
  drop (Z.to_nat from) s.

Definition in_range (lo hi c : ascii) : bool :=
  (N_of_ascii lo <=? N_of_ascii c)%N && (N_of_ascii c <=? N_of_ascii hi)%N.

(** [c.toLowerCase()] on an ASCII character: [A-Z] moves to [a-z]. *)
Definition lower_char (c : ascii) : ascii :=
  if in_range "A" "Z" c then ascii_of_N (N_of_ascii c + 32) else c.

(** [s.toLowerCase()] *)
Fixpoint toLowerCase (s : string) : string :=
  match s with
  | EmptyString => EmptyString
  | String c s' => String (lower_char c) (toLowerCase s')
  end.

(** [s.replace(/c/g, '')]: every occurrence of the character removed. *)
Fixpoint remove_all (c : ascii) (s : string) : string :=
  match s with
  | EmptyString => EmptyString
  | String a s' =>
      if Ascii.eqb a c then remove_all c s' else String a (remove_all c s')
  end.

(** [n.toString()] of a non-negative integer (decimal digits; content
    lengths stay far below the 1e21 where JS switches to exponents). *)
Definition toString (n : N) : string :=
  NilZero.string_of_uint (N.to_uint n).

End JS.

(** The double-quote character, and a string between two of them. *)
Definition DQUOTE : ascii := "034"%char.

Definition quoted (s : string) : string :=
  String DQUOTE (s +:+ String DQUOTE EmptyString).

(** ** The regular expressions of the validators

    Both validator regexes have the shape [^[...]{lo,hi}$]: a character
    class repeated between [lo] and [hi] times, anchored at both ends
    (without the [m] flag [$] matches at the very end of the input only). *)

Module RegExp.

Inductive ClassAtom : Type :=
| WordEscape                    (* \w *)
| IdentityEscape (c : ascii)    (* \- and \. : the character itself *)
| Literal (c : ascii).          (* a plain character; "." is literal in a class *)

Record t : Type := AnchoredClass
  { atoms : list ClassAtom; lo : nat; hi : nat }.

(** [\w] without the [u] and [i] flags: [A-Za-z0-9_]. *)
Definition word_char (c : ascii) : bool :=
  JS.in_range "a" "z" c || JS.in_range "A" "Z" c ||
  JS.in_range "0" "9" c || Ascii.eqb c "_".

Definition atom_matches (c : ascii) (a : ClassAtom) : bool :=
  match a with
  | WordEscape => word_char c
  | IdentityEscape d => Ascii.eqb c d
  | Literal d => Ascii.eqb c d
  end.

Definition class_matches (cls : list ClassAtom) (c : ascii) : bool :=
  existsb (atom_matches c) cls.

(** [r.test(s)] *)
Definition test (r : t) (s : string) : bool :=
  (lo r <=? String.length s)%nat && (String.length s <=? hi r)%nat &&
  forallb (class_matches (atoms r)) (list_ascii_of_string s).

End RegExp.

(** ** HTTP values and the effects of a request *)

(** A response body: the text handed to [c.text], or the bytes of a stream. *)
Inductive BodyInit : Type :=
| TextBody (s : string)
| StreamBody (bytes : list Byte.byte).

(** A response as the handler builds it: the status, the body and the header
    object it hands to the response constructor.  A header whose value is
    [undefined] in the source is [None] here; [c_newResponse] below throws
    on such an object, so no answer of a handler holds one. *)
Record Response : Type := mkResponse
  { status : Z; body : BodyInit; headers : gmap string (option string) }.

(** [c.text(msg, status)]: the handler passes no header of its own. *)
Definition c_text (msg : string) (st : Z) : Response :=
  mkResponse st (TextBody msg) ∅.


(** [new Response(body, { status, headers })] with a plain object of strings. *)
Definition new_Response (b : BodyInit) (st : Z) (h : gmap string string) : Response :=
  mkResponse st b (Some <$> h).

(** A thrown value; the handlers only ever look at its [name]. *)
Record Error : Type := mkError { name : string }.

Inductive Outcome (A : Type) : Type :=
| Resolved (a : A)
| Rejected (e : Error).
Arguments Resolved {A} a.
Arguments Rejected {A} e.

(** Some header of the record has no value. *)
Definition has_undefined (h : gmap string (option string)) : bool :=
  existsb (λ kv, match kv.2 with None => true | Some _ => false end)
          (map_to_list h).

(** [c.newResponse(stream, status, headers)]: the framework sets a header
    whose value is a string and iterates over any other value, which throws
    a [TypeError] when the value is [undefined]. *)
Definition c_newResponse (bytes : list Byte.byte) (st : Z)
    (h : gmap string (option string)) : Outcome Response :=
  if has_undefined h then Rejected (mkError "TypeError")
  else Resolved (mkResponse st (StreamBody bytes) h).

(** What a cached response shows to the handler: its status, its body and
    the pairs its [headers] yield when iterated (names in lower case). *)
Record CachedResponse : Type := mkCached
  { cached_status : Z;
    cached_body : BodyInit;
    cached_headers : list (string * string) }.

(** The calls a handler makes to its collaborators, in the order made. *)
Inductive Event : Type :=
| HeadObject (key : string)              (* s3.send(new HeadObjectCommand) *)
| GetObject (key : string)               (* s3.send(new GetObjectCommand) *)
| CacheMatch (url : string)              (* cache.match(cacheKey) *)
| CachePut (url : string) (r : Response) (* cache.put(cacheKey, clone) *)
| FileStat (key : string)                (* file.stat() *)
| FileExists (key : string)              (* file.exists() *)
| FileStream (key : string)              (* file.stream() *)
| ConsoleError (e : Error).              (* console.error(..., error) *)

(** The world a request runs in: the edge cache (keyed by request URL) and
    the calls made so far. *)
Record World : Type := mkWorld
  { cache : gmap string CachedResponse; trace : list Event }.

(** Asynchronous code that may reject, over the world. *)
Definition M (A : Type) : Type := World → Outcome A * World.

Global Instance M_ret : MRet M := λ A a w, (Resolved a, w).
Global Instance M_bind : MBind M := λ A B f m w,
  match m w with
  | (Resolved a, w') => f a w'
  | (Rejected e, w') => (Rejected e, w')
  end.

Definition throw {A} (e : Error) : M A := λ w, (Rejected e, w).

Definition emit (ev : Event) : M unit :=
  λ w, (Resolved (), mkWorld (cache w) (trace w ++ [ev])).

(** [try { m } catch (error) { h error }] *)
Definition try_catch {A} (m : M A) (h : Error → M A) : M A := λ w,
  match m w with
  | (Resolved a, w') => (Resolved a, w')
  | (Rejected e, w') => h e w'
  end.

(** [await Promise.all([a, b])]: both are started; it rejects if one does. *)
Definition promise_all {A B} (a : M A) (b : M B) : M (A * B) := λ w,
  let '(ra, w1) := a w in
  let '(rb, w2) := b w1 in
  (match ra, rb with
   | Resolved x, Resolved y => Resolved (x, y)
   | Rejected e, _ => Rejected e
   | _, Rejected e => Rejected e
   end, w2).

(** [ctx.waitUntil(promise)]: the promise runs to its end, the handler does
    not wait for it and never sees it reject. *)
Definition waitUntil (p : M unit) : M unit := λ w,
  let '(_, w') := p w in (Resolved (), w').

Definition console_error (e : Error) : M unit := emit (ConsoleError e).

(** The answer of a collaborator: the promise resolves or rejects. *)
Definition settle {A} (o : Outcome A) : M A := λ w, (o, w).

Definition read_cache (key : string) : M (option CachedResponse) :=
  λ w, (Resolved (cache w !! key), w).

Definition write_cache (key : string) (c : CachedResponse) : M unit :=
  λ w, (Resolved (), mkWorld (<[key := c]> (cache w)) (trace w)).

(** [Object.fromEntries(pairs)]: a later pair wins over an earlier one. *)
Definition fromEntries (pairs : list (string * string)) : gmap string string :=
  foldl (λ o kv, <[kv.1 := kv.2]> o) ∅ pairs.

(** The pairs the [headers] of a response yield once the response exists:
    names in lower case, headers without a value absent. *)
Definition Headers_entries (h : gmap string (option string)) : list (string * string) :=
  omap (λ kv, (λ v, (JS.toLowerCase kv.1, v)) <$> kv.2) (map_to_list h).

(** [response.headers.get(name)] *)
Definition Headers_get (nm : string) (r : Response) : option string :=
  fromEntries (Headers_entries (headers r)) !! JS.toLowerCase nm.

(** What the cache keeps of a response put into it.  The cache of the
    runtime may give an entry back with headers of its own added ([age],
    [cf-cache-status], [date]) and may drop it; the model keeps what was
    put. *)
Definition snapshot (r : Response) : CachedResponse :=
  mkCached (status r) (body r) (Headers_entries (headers r)).

(** ** The tables, the same in the three files *)

Definition ALLOWED_EXTENSIONS : gset string :=
  {[ ".jpg"; ".jpeg"; ".png"; ".gif"; ".webp" ]}.

Definition CONTENT_TYPES : gmap string string :=
  {[ ".jpg" := "image/jpeg";
     ".jpeg" := "image/jpeg";
     ".png" := "image/png";
     ".gif" := "image/gif";
     ".webp" := "image/webp" ]}.

(** [ALLOWED_EXTENSIONS.has(ext)] *)
Definition ALLOWED_EXTENSIONS_has (ext : string) : bool :=
  bool_decide (ext ∈ ALLOWED_EXTENSIONS).

(** [filename.slice(filename.lastIndexOf('.')).toLowerCase()] *)
Definition ext_of (filename : string) : string :=
  JS.toLowerCase (JS.slice filename (JS.lastIndexOf "." filename)).

(** A request to [/images/:filename]: its URL and the [filename] parameter. *)
Record Request : Type := mkRequest { url : string; param_filename : string }.

(** ** src/index.ts: the Worker with the edge cache *)

Module Worker.

(** [/^[\w\-.]{1,256}$/] *)
Definition filename_re : RegExp.t :=
  RegExp.AnchoredClass
    [RegExp.WordEscape; RegExp.IdentityEscape "-"; RegExp.Literal "."] 1 256.

Definition validateFilename (filename : string) : bool :=
  RegExp.test filename_re filename &&
  negb (JS.includes ".." filename) &&
  (length (JS.split "." filename) <=? 10)%nat.

(** The fields of [HeadObjectCommandOutput] and [GetObjectCommandOutput]
    the handler reads; both fields of the first are optional in the SDK. *)
Record HeadObjectOutput : Type := mkHead
  { ETag : option string; ContentLength : option N }.
Record GetObjectOutput : Type := mkGet { Body : list Byte.byte }.

(** The collaborators of one request: what the store answers for a key,
    and whether the cache fails on lookup or on store. *)
Record Env : Type := mkEnv
  { head_object : string → Outcome HeadObjectOutput;
    get_object : string → Outcome GetObjectOutput;
    cache_match_failure : option Error;
    cache_put_failure : option Error }.

Definition s3_send_head (env : Env) (key : string) : M HeadObjectOutput :=
  emit (HeadObject key) ;; settle (head_object env key).

Definition s3_send_get (env : Env) (key : string) : M GetObjectOutput :=
  emit (GetObject key) ;; settle (get_object env key).

Definition cache_match (env : Env) (key : string) : M (option CachedResponse) :=
  emit (CacheMatch key) ;;
  match cache_match_failure env with
  | Some e => throw e
  | None => read_cache key
  end.

Definition cache_put (env : Env) (key : string) (r : Response) : M unit :=
  emit (CachePut key r) ;;
  match cache_put_failure env with
  | Some e => throw e
  | None => write_cache key (snapshot r)
  end.

(** [app.get('/images/:filename', ...)] *)
Definition images (env : Env) (req : Request) : M Response :=
  let filename := param_filename req in
  if negb (validateFilename filename) then
    mret (c_text "Invalid filename format" 400)
  else
  let ext := ext_of filename in
  if negb (ALLOWED_EXTENSIONS_has ext) then
    mret (c_text "Unsupported file type" 415)
  else
  try_catch
    (headResponse ← s3_send_head env filename ;
     let cacheKey := url req in
     cachedResponse ← cache_match env cacheKey ;
     match cachedResponse with
     | Some cached =>
         mret (new_Response (cached_body cached) 200
                 (<["x-cache-status" := "HIT"]>
                    (fromEntries (cached_headers cached))))
     | None =>
         s3Response ← s3_send_get env filename ;
         newResponse ← settle (
           c_newResponse (Body s3Response) 200
             {[ "Content-Type" := CONTENT_TYPES !! ext;
                "Cache-Control" := Some "public, max-age=604800";
                "ETag" := JS.remove_all DQUOTE <$> ETag headResponse;
                "Content-Length" := JS.toString <$> ContentLength headResponse;
                "X-Content-Type-Options" := Some "nosniff";
                "X-Cache-Status" := Some "MISS" ]}) ;
         waitUntil (cache_put env cacheKey newResponse) ;;
         mret newResponse
     end)
    (λ error,
       if String.eqb (name error) "NotFound" then
         mret (c_text "Image not found" 404)
       else
         console_error error ;;
         mret (c_text "Internal Server Error" 500)).

(** A sequence of requests, each with the collaborators it meets, served
    one after the other over the same cache.  A handler that throws is
    answered by the framework with a plain 500. *)
Fixpoint serve (jobs : list (Env * Request)) (w : World)
    : list (Request * Response) * World :=
  match jobs with
  | [] => ([], w)
  | (env, req) :: rest =>
      let '(out, w') := images env req w in
      let r := match out with
               | Resolved r => r
               | Rejected _ => c_text "Internal Server Error" 500
               end in
      let '(rs, w'') := serve rest w' in
      ((req, r) :: rs, w'')
  end.

End Worker.

(** ** The Worker without a cache *)

Module PlainWorker.

(** [/^[\w\-.]{1,256}$/] *)
Definition filename_re : RegExp.t :=
  RegExp.AnchoredClass
    [RegExp.WordEscape; RegExp.IdentityEscape "-"; RegExp.Literal "."] 1 256.

Definition validateFilename (filename : string) : bool :=
  RegExp.test filename_re filename &&
  negb (JS.includes ".." filename) &&
  (length (JS.split "." filename) <=? 10)%nat.

Record Env : Type := mkEnv
  { head_object : string → Outcome Worker.HeadObjectOutput;
    get_object : string → Outcome Worker.GetObjectOutput }.

Definition s3_send_head (env : Env) (key : string) : M Worker.HeadObjectOutput :=
  emit (HeadObject key) ;; settle (head_object env key).

Definition s3_send_get (env : Env) (key : string) : M Worker.GetObjectOutput :=
  emit (GetObject key) ;; settle (get_object env key).

(** [app.get('/images/:filename', ...)] *)
Definition images (env : Env) (req : Request) : M Response :=
  let filename := param_filename req in
  if negb (validateFilename filename) then
    mret (c_text "Invalid filename format" 400)
  else
  let ext := ext_of filename in
  if negb (ALLOWED_EXTENSIONS_has ext) then
    mret (c_text "Unsupported file type" 415)
  else
  try_catch
    (headResponse ← s3_send_head env filename ;
     response ← s3_send_get env filename ;
     settle (c_newResponse (Worker.Body response) 200
               {[ "Content-Type" := CONTENT_TYPES !! ext;
                  "Cache-Control" := Some "public, max-age=604800";
                  "ETag" := JS.remove_all DQUOTE <$> Worker.ETag headResponse;
                  "Content-Length" :=
                    JS.toString <$> Worker.ContentLength headResponse;
                  "X-Content-Type-Options" := Some "nosniff" ]}))
    (λ error,
       if String.eqb (name error) "NotFound" then
         mret (c_text "Image not found" 404)
       else
         console_error error ;;
         mret (c_text "Internal Server Error" 500)).

End PlainWorker.

(** ** The Bun server *)

Module BunServer.

(** [/^[\w\-\.]{1,256}$/] *)
Definition filename_re : RegExp.t :=
  RegExp.AnchoredClass
    [RegExp.WordEscape; RegExp.IdentityEscape "-"; RegExp.IdentityEscape "."]
    1 256.

Definition validateFilename (filename : string) : bool :=
  RegExp.test filename_re filename &&
  negb (JS.includes ".." filename) &&
  (length (JS.split "." filename) <=? 10)%nat.

(** The field of Bun's [S3Stats] the handler reads. *)
Record S3Stats : Type := mkStats { etag : string }.

(** What the file reference [s3.file(filename)] answers for a key. *)
Record Env : Type := mkEnv
  { stat_result : string → Outcome S3Stats;
    exists_result : string → Outcome bool;
    stream_bytes : string → list Byte.byte }.

(** [file.stat()], [file.exists()] and [file.stream()] *)
Definition file_stat (env : Env) (key : string) : M S3Stats :=
  emit (FileStat key) ;; settle (stat_result env key).

Definition file_exists (env : Env) (key : string) : M bool :=
  emit (FileExists key) ;; settle (exists_result env key).

Definition file_stream (env : Env) (key : string) : M (list Byte.byte) :=
  emit (FileStream key) ;; mret (stream_bytes env key).

(** [app.get('/images/:filename', ...)] *)
Definition images (env : Env) (req : Request) : M Response :=
  let filename := param_filename req in
  if negb (validateFilename filename) then
    mret (c_text "Invalid filename format" 400)
  else
  let ext := ext_of filename in
  if negb (ALLOWED_EXTENSIONS_has ext) then
    mret (c_text "Unsupported file type" 415)
  else
  try_catch
    ('(stat, exists_) ← promise_all (file_stat env filename)
                                    (file_exists env filename) ;
     if negb exists_ then
       mret (c_text "Image not found" 404)
     else
       bytes ← file_stream env filename ;
       settle (c_newResponse bytes 200
                 {[ "Content-Type" := CONTENT_TYPES !! ext;
                    "Cache-Control" := Some "public, max-age=604800";
                    "ETag" := Some (etag stat);
                    "X-Content-Type-Options" := Some "nosniff" ]}))
    (λ error,
       console_error error ;;
       mret (c_text "Internal Server Error" 500)).

End BunServer.

(** ** Reference predicates and sample collaborators *)

(** The character class [[A-Za-z0-9_\-.]] by character codes. *)
Definition allowed_char (c : ascii) : bool :=
  let n := N_of_ascii c in
  ((65 <=? n) && (n <=? 90) || (97 <=? n) && (n <=? 122) ||
   (48 <=? n) && (n <=? 57) || (n =? 95) || (n =? 45) || (n =? 46))%N.

(** Two dots in a row somewhere in the string. *)
Fixpoint has_dotdot (s : string) : bool :=
  match s with
  | String "." (String "." _) => true
  | String _ s' => has_dotdot s'
  | EmptyString => false
  end.

(** The number of occurrences of a character. *)
Fixpoint count_char (c : ascii) (s : string) : nat :=
  match s with
  | EmptyString => O
  | String a s' => (if Ascii.eqb a c then 1 else 0) + count_char c s'
  end.

(** The validator in the words of its contract: 1 to 256 characters, all of
    the allowed class, no [..], at most 10 dot-delimited tokens (at most 9
    dots). *)
Definition validate_reference (s : string) : bool :=
  (1 <=? String.length s)%nat && (String.length s <=? 256)%nat &&
  forallb allowed_char (list_ascii_of_string s) &&
  negb (has_dotdot s) &&
  (count_char "." s <=? 9)%nat.

(** [tokens.join(sep)] *)
Fixpoint join (sep : ascii) (tokens : list string) : string :=
  match tokens with
  | [] => EmptyString
  | [t] => t
  | t :: ts => t +:+ String sep (join sep ts)
  end.

(** The MIME types of the [CONTENT_TYPES] table. *)
Definition IMAGE_TYPES : list string :=
  ["image/jpeg"; "image/png"; "image/gif"; "image/webp"].

(** Every cached entry has its header names in lower case, as the iteration
    of [Headers] yields them, and carries a content type of the table. *)
Definition cache_ok (c : gmap string CachedResponse) : Prop :=
  ∀ u e, c !! u = Some e →
    Forall (λ kv, JS.toLowerCase kv.1 = kv.1) (cached_headers e) ∧
    ∃ ct, fromEntries (cached_headers e) !! "content-type" = Some ct ∧
          ct ∈ IMAGE_TYPES.

(** The answer for an object the store does not hold. *)
Definition not_found_answer (r : Response) : Prop :=
  status r = 404 ∧ body r = TextBody "Image not found" ∧
  headers r = ∅ ∧ Headers_get "ETag" r = None.

(** The calls to the object store among the calls made. *)
Definition is_store_call (ev : Event) : bool :=
  match ev with
  | HeadObject _ | GetObject _ => true
  | _ => false
  end.

(** The calls a run added to the trace of the world it started in. *)
Definition new_events (w w' : World) : list Event :=
  drop (length (trace w)) (trace w').

(** The request of a cached name is answered without a call to the store. *)
Definition answered_from_cache_alone (env : Worker.Env) (req : Request) (w : World) : Prop :=
  Worker.validateFilename (param_filename req) = true →
  ALLOWED_EXTENSIONS_has (ext_of (param_filename req)) = true →
  Worker.cache_match_failure env = None →
  is_Some (cache w !! url req) →
  filter (λ ev, is_store_call ev = true)
         (new_events w (Worker.images env req w).2) = [].

(** The same collaborators with a cache that works and holds nothing. *)
Definition with_working_cache (env : Worker.Env) : Worker.Env :=
  Worker.mkEnv (Worker.head_object env) (Worker.get_object env) None None.

(** The same collaborators with a cache whose store succeeds. *)
Definition with_working_put (env : Worker.Env) : Worker.Env :=
  Worker.mkEnv (Worker.head_object env) (Worker.get_object env)
    (Worker.cache_match_failure env) None.

(** A failure of the cache lookup changes nothing in the answer, compared
    with a lookup that misses. *)
Definition lookup_failure_is_a_miss (env : Worker.Env) (req : Request) (w : World) : Prop :=
  is_Some (Worker.cache_match_failure env) →
  (Worker.images env req w).1 =
  (Worker.images (with_working_cache env) req (mkWorld ∅ (trace w))).1.

(** A bucket holding [photo.jpg] (12345 bytes, tag ["abc123"] in quotes). *)
Definition photo_bytes : list Byte.byte := String.list_byte_of_string "JFIF".

Definition photo_head (key : string) : Outcome Worker.HeadObjectOutput :=
  if String.eqb key "photo.jpg"
  then Resolved (Worker.mkHead (Some (quoted "abc123")) (Some 12345%N))
  else Rejected (mkError "NotFound").

Definition photo_get (key : string) : Outcome Worker.GetObjectOutput :=
  if String.eqb key "photo.jpg"
  then Resolved (Worker.mkGet photo_bytes)
  else Rejected (mkError "NoSuchKey").

Definition photo_env : Worker.Env := Worker.mkEnv photo_head photo_get None None.

(** The same bucket behind a cache that is down. *)
Definition cache_down_env : Worker.Env :=
  Worker.mkEnv photo_head photo_get
    (Some (mkError "CacheError")) (Some (mkError "CacheError")).

Definition photo_plain_env : PlainWorker.Env :=
  PlainWorker.mkEnv photo_head photo_get.

(** The same bucket as the Bun client shows it: [stat] rejects for an
    object the bucket does not hold, [exists] answers false for it. *)
Definition photo_bun_env : BunServer.Env :=
  BunServer.mkEnv
    (λ key, if String.eqb key "photo.jpg"
            then Resolved (BunServer.mkStats (quoted "abc123"))
            else Rejected (mkError "S3Error"))
    (λ key, Resolved (String.eqb key "photo.jpg"))
    (λ _, photo_bytes).

Definition photo_req : Request :=
  mkRequest "https://img.example/images/photo.jpg" "photo.jpg".

Definition missing_req : Request :=
  mkRequest "https://img.example/images/missing.gif" "missing.gif".

Definition empty_world : World := mkWorld ∅ [].

(** The world after [photo.jpg] was served once from the bucket. *)
Definition warm_world : World :=
  mkWorld (cache (Worker.images photo_env photo_req empty_world).2) [].

(** The answers of the cached Worker, named: the one its [catch] block
    gives for a thrown value (with the line it logs), the one rebuilt from a
    cached entry, and the one assembled after a fetch from the store. *)
Definition catch_response (e : Error) : Response :=
  if String.eqb (name e) "NotFound"
  then c_text "Image not found" 404
  else c_text "Internal Server Error" 500.

Definition catch_log (e : Error) : list Event :=
  if String.eqb (name e) "NotFound" then [] else [ConsoleError e].

Definition hit_response (cached : CachedResponse) : Response :=
  mkResponse 200 (cached_body cached)
    (Some <$> <["x-cache-status" := "HIT"]> (fromEntries (cached_headers cached))).

Definition miss_response (ext : string) (h : Worker.HeadObjectOutput)
    (g : Worker.GetObjectOutput) : Response :=
  mkResponse 200 (StreamBody (Worker.Body g))
    {[ "Content-Type" := CONTENT_TYPES !! ext;
       "Cache-Control" := Some "public, max-age=604800";
       "ETag" := JS.remove_all DQUOTE <$> Worker.ETag h;
       "Content-Length" := JS.toString <$> Worker.ContentLength h;
       "X-Content-Type-Options" := Some "nosniff";
       "X-Cache-Status" := Some "MISS" ]}.

(** The answers the two other handlers assemble after a fetch. *)
Definition plain_response (ext : string) (h : Worker.HeadObjectOutput)
    (g : Worker.GetObjectOutput) : Response :=
  mkResponse 200 (StreamBody (Worker.Body g))
    {[ "Content-Type" := CONTENT_TYPES !! ext;
       "Cache-Control" := Some "public, max-age=604800";
       "ETag" := JS.remove_all DQUOTE <$> Worker.ETag h;
       "Content-Length" := JS.toString <$> Worker.ContentLength h;
       "X-Content-Type-Options" := Some "nosniff" ]}.

Definition bun_response (ext : string) (st : BunServer.S3Stats)
    (bytes : list Byte.byte) : Response :=
  mkResponse 200 (StreamBody bytes)
    {[ "Content-Type" := CONTENT_TYPES !! ext;
       "Cache-Control" := Some "public, max-age=604800";
       "ETag" := Some (BunServer.etag st);
       "X-Content-Type-Options" := Some "nosniff" ]}.

(** The six headers of a fetched image: the content type [ct], the cache
    policy, the tag [tag] without its quotes, the length [len], the
    no-sniff flag and a cache status. *)
Definition carries_fetch_headers (r : Response) (ct tag len : string) : Prop :=
  Headers_get "Content-Type" r = Some ct ∧
  Headers_get "Cache-Control" r = Some "public, max-age=604800" ∧
  Headers_get "ETag" r = Some (JS.remove_all DQUOTE tag) ∧
  Headers_get "Content-Length" r = Some len ∧
  Headers_get "X-Content-Type-Options" r = Some "nosniff" ∧
  is_Some (Headers_get "X-Cache-Status" r).

(** The cache after the asynchronous store of [r] under [u]. *)
Definition cache_after_put (env : Worker.Env) (u : string) (r : Response)
    (c : gmap string CachedResponse) : gmap string CachedResponse :=
  match Worker.cache_put_failure env with
  | Some _ => c
  | None => <[u := snapshot r]> c
  end.

(** The world [w] after the calls [evs], with the cache [c]. *)
Definition after (w : World) (c : gmap string CachedResponse) (evs : list Event) : World :=
  mkWorld c (trace w ++ evs).

(** The head metadata has both fields the response headers are built from. *)
Definition has_metadata (h : Worker.HeadObjectOutput) : bool :=
  match Worker.ETag h, Worker.ContentLength h with
  | Some _, Some _ => true
  | _, _ => false
  end.

(** The value [c.newResponse] throws for a header without a value. *)
Definition TypeError : Error := mkError "TypeError".

(** The paths of one request through the cached Worker: the answer and the
    world each of them ends in. *)
Inductive WorkerRun (env : Worker.Env) (req : Request) (w : World)
    : Response → World → Prop :=
| RunInvalid :
    Worker.validateFilename (param_filename req) = false →
    WorkerRun env req w (c_text "Invalid filename format" 400) w
| RunUnsupported :
    Worker.validateFilename (param_filename req) = true →
    ALLOWED_EXTENSIONS_has (ext_of (param_filename req)) = false →
    WorkerRun env req w (c_text "Unsupported file type" 415) w
| RunHeadRejected e :
    Worker.validateFilename (param_filename req) = true →
    ALLOWED_EXTENSIONS_has (ext_of (param_filename req)) = true →
    Worker.head_object env (param_filename req) = Rejected e →
    WorkerRun env req w (catch_response e)
      (after w (cache w) (HeadObject (param_filename req) :: catch_log e))
| RunLookupFailed h e :
    Worker.validateFilename (param_filename req) = true →
    ALLOWED_EXTENSIONS_has (ext_of (param_filename req)) = true →
    Worker.head_object env (param_filename req) = Resolved h →
    Worker.cache_match_failure env = Some e →
    WorkerRun env req w (catch_response e)
      (after w (cache w)
         (HeadObject (param_filename req) :: CacheMatch (url req) :: catch_log e))
| RunHit h cached :
    Worker.validateFilename (param_filename req) = true →
    ALLOWED_EXTENSIONS_has (ext_of (param_filename req)) = true →
    Worker.head_object env (param_filename req) = Resolved h →
    Worker.cache_match_failure env = None →
    cache w !! url req = Some cached →
    WorkerRun env req w (hit_response cached)
      (after w (cache w) [HeadObject (param_filename req); CacheMatch (url req)])
| RunGetRejected h e :
    Worker.validateFilename (param_filename req) = true →
    ALLOWED_EXTENSIONS_has (ext_of (param_filename req)) = true →
    Worker.head_object env (param_filename req) = Resolved h →
    Worker.cache_match_failure env = None →
    cache w !! url req = None →
    Worker.get_object env (param_filename req) = Rejected e →
    WorkerRun env req w (catch_response e)
      (after w (cache w)
         (HeadObject (param_filename req) :: CacheMatch (url req) ::
          GetObject (param_filename req) :: catch_log e))
| RunBuildFailed h g :
    Worker.validateFilename (param_filename req) = true →
    ALLOWED_EXTENSIONS_has (ext_of (param_filename req)) = true →
    Worker.head_object env (param_filename req) = Resolved h →
    Worker.cache_match_failure env = None →
    cache w !! url req = None →
    Worker.get_object env (param_filename req) = Resolved g →
    has_metadata h = false →
    WorkerRun env req w (catch_response TypeError)
      (after w (cache w)
         (HeadObject (param_filename req) :: CacheMatch (url req) ::
          GetObject (param_filename req) :: catch_log TypeError))
| RunMiss h g :
    Worker.validateFilename (param_filename req) = true →
    ALLOWED_EXTENSIONS_has (ext_of (param_filename req)) = true →
    Worker.head_object env (param_filename req) = Resolved h →
    Worker.cache_match_failure env = None →
    cache w !! url req = None →
    Worker.get_object env (param_filename req) = Resolved g →
    has_metadata h = true →
    let r := miss_response (ext_of (param_filename req)) h g in
    WorkerRun env req w r
      (after w (cache_after_put env (url req) r (cache w))
         [HeadObject (param_filename req); CacheMatch (url req);
          GetObject (param_filename req); CachePut (url req) r]).

(** ** Further reference predicates *)

(** A name the contract calls safe, without reference to the string
    methods: 1 to 256 characters, each of [[A-Za-z0-9_\-.]], no two dots in a
    row, at most nine dots. *)
Definition safe_name (s : string) : Prop :=
  (1 ≤ String.length s ≤ 256)%nat ∧
  (∀ c, In c (list_ascii_of_string s) → allowed_char c = true) ∧
  (∀ a b, s ≠ a +:+ ".." +:+ b) ∧
  (count_char "." s ≤ 9)%nat.

(** The paths of one request through the Worker without a cache: the answer
    and the calls made. *)
Inductive PlainRun (env : PlainWorker.Env) (req : Request)
    : Response → list Event → Prop :=
| PlainInvalid :
    PlainWorker.validateFilename (param_filename req) = false →
    PlainRun env req (c_text "Invalid filename format" 400) []
| PlainUnsupported :
    PlainWorker.validateFilename (param_filename req) = true →
    ALLOWED_EXTENSIONS_has (ext_of (param_filename req)) = false →
    PlainRun env req (c_text "Unsupported file type" 415) []
| PlainHeadRejected e :
    PlainWorker.validateFilename (param_filename req) = true →
    ALLOWED_EXTENSIONS_has (ext_of (param_filename req)) = true →
    PlainWorker.head_object env (param_filename req) = Rejected e →
    PlainRun env req (catch_response e)
      (HeadObject (param_filename req) :: catch_log e)
| PlainGetRejected h e :
    PlainWorker.validateFilename (param_filename req) = true →
    ALLOWED_EXTENSIONS_has (ext_of (param_filename req)) = true →
    PlainWorker.head_object env (param_filename req) = Resolved h →
    PlainWorker.get_object env (param_filename req) = Rejected e →
    PlainRun env req (catch_response e)
      (HeadObject (param_filename req) :: GetObject (param_filename req) ::
       catch_log e)
| PlainBuildFailed h g :
    PlainWorker.validateFilename (param_filename req) = true →
    ALLOWED_EXTENSIONS_has (ext_of (param_filename req)) = true →
    PlainWorker.head_object env (param_filename req) = Resolved h →
    PlainWorker.get_object env (param_filename req) = Resolved g →
    has_metadata h = false →
    PlainRun env req (catch_response TypeError)
      (HeadObject (param_filename req) :: GetObject (param_filename req) ::
       catch_log TypeError)
| PlainFetched h g :
    PlainWorker.validateFilename (param_filename req) = true →
    ALLOWED_EXTENSIONS_has (ext_of (param_filename req)) = true →
    PlainWorker.head_object env (param_filename req) = Resolved h →
    PlainWorker.get_object env (param_filename req) = Resolved g →
    has_metadata h = true →
    PlainRun env req (plain_response (ext_of (param_filename req)) h g)
      [HeadObject (param_filename req); GetObject (param_filename req)].

(** The paths of one request through the Bun server. *)
Inductive BunRun (env : BunServer.Env) (req : Request)
    : Response → list Event → Prop :=
| BunInvalid :
    BunServer.validateFilename (param_filename req) = false →
    BunRun env req (c_text "Invalid filename format" 400) []
| BunUnsupported :
    BunServer.validateFilename (param_filename req) = true →
    ALLOWED_EXTENSIONS_has (ext_of (param_filename req)) = false →
    BunRun env req (c_text "Unsupported file type" 415) []
| BunStatRejected e :
    BunServer.validateFilename (param_filename req) = true →
    ALLOWED_EXTENSIONS_has (ext_of (param_filename req)) = true →
    BunServer.stat_result env (param_filename req) = Rejected e →
    BunRun env req (c_text "Internal Server Error" 500)
      [FileStat (param_filename req); FileExists (param_filename req);
       ConsoleError e]
| BunExistsRejected st e :
    BunServer.validateFilename (param_filename req) = true →
    ALLOWED_EXTENSIONS_has (ext_of (param_filename req)) = true →
    BunServer.stat_result env (param_filename req) = Resolved st →
    BunServer.exists_result env (param_filename req) = Rejected e →
    BunRun env req (c_text "Internal Server Error" 500)
      [FileStat (param_filename req); FileExists (param_filename req);
       ConsoleError e]
| BunMissing st :
    BunServer.validateFilename (param_filename req) = true →
    ALLOWED_EXTENSIONS_has (ext_of (param_filename req)) = true →
    BunServer.stat_result env (param_filename req) = Resolved st →
    BunServer.exists_result env (param_filename req) = Resolved false →
    BunRun env req (c_text "Image not found" 404)
      [FileStat (param_filename req); FileExists (param_filename req)]
| BunFetched st :
    BunServer.validateFilename (param_filename req) = true →
    ALLOWED_EXTENSIONS_has (ext_of (param_filename req)) = true →
    BunServer.stat_result env (param_filename req) = Resolved st →
    BunServer.exists_result env (param_filename req) = Resolved true →
    BunRun env req
      (bun_response (ext_of (param_filename req)) st
         (BunServer.stream_bytes env (param_filename req)))
      [FileStat (param_filename req); FileExists (param_filename req);
       FileStream (param_filename req)].

(** One of the four plain-text error answers, without any header of the
    handler. *)
Definition error_answer (r : Response) : Prop :=
  headers r = ∅ ∧
  (status r = 400 ∧ body r = TextBody "Invalid filename format" ∨
   status r = 415 ∧ body r = TextBody "Unsupported file type" ∨
   status r = 404 ∧ body r = TextBody "Image not found" ∨
   status r = 500 ∧ body r = TextBody "Internal Server Error").

(** The key a call to the store is made with. *)
Definition store_key (ev : Event) : option string :=
  match ev with
  | HeadObject k | GetObject k | FileStat k | FileExists k | FileStream k => Some k
  | CacheMatch _ | CachePut _ _ | ConsoleError _ => None
  end.

(** The URL a call to the cache is made with. *)
Definition cache_key (ev : Event) : option string :=
  match ev with
  | CacheMatch u | CachePut u _ => Some u
  | _ => None
  end.

Definition is_log (ev : Event) : bool :=
  match ev with ConsoleError _ => true | _ => false end.

(** The lines a run logged. *)
Definition logged (evs : list Event) : list Event :=
  filter (λ ev, is_log ev = true) evs.

(** [e] is the value thrown by the first call of the cached Worker that
    fails: the head call, the cache lookup, the get call after a miss, or
    the response constructor for head metadata without tag or length. *)
Definition worker_thrown (env : Worker.Env) (req : Request) (w : World)
    (e : Error) : Prop :=
  Worker.head_object env (param_filename req) = Rejected e ∨
  ∃ h, Worker.head_object env (param_filename req) = Resolved h ∧
    (Worker.cache_match_failure env = Some e ∨
     Worker.cache_match_failure env = None ∧ cache w !! url req = None ∧
       (Worker.get_object env (param_filename req) = Rejected e ∨
        ∃ g, Worker.get_object env (param_filename req) = Resolved g ∧
             has_metadata h = false ∧ e = TypeError)).

(** The same for the Worker without a cache. *)
Definition plain_thrown (env : PlainWorker.Env) (req : Request) (e : Error) : Prop :=
  PlainWorker.head_object env (param_filename req) = Rejected e ∨
  ∃ h, PlainWorker.head_object env (param_filename req) = Resolved h ∧
    (PlainWorker.get_object env (param_filename req) = Rejected e ∨
     ∃ g, PlainWorker.get_object env (param_filename req) = Resolved g ∧
          has_metadata h = false ∧ e = TypeError).

(** [e] is the value one of the two calls of the Bun server threw. *)
Definition bun_thrown (env : BunServer.Env) (req : Request) (e : Error) : Prop :=
  BunServer.stat_result env (param_filename req) = Rejected e ∨
  BunServer.exists_result env (param_filename req) = Rejected e.

(** The calls to the object store a run made. *)
Definition store_calls (evs : list Event) : list Event :=
  filter (λ ev, is_store_call ev = true) evs.

(** The collaborators of the Worker without a cache that answer as the
    store of [env] does. *)
Definition plain_of (env : Worker.Env) : PlainWorker.Env :=
  PlainWorker.mkEnv (Worker.head_object env) (Worker.get_object env).

(** [suf] is the text after the last dot of [filename]. *)
Definition last_dot_suffix (filename suf : string) : Prop :=
  ∃ pre, filename = pre +:+ "." +:+ suf ∧
         ¬ In "."%char (list_ascii_of_string suf).

(** The suffixes of the served image files. *)
Definition IMAGE_SUFFIXES : list string := ["jpg"; "jpeg"; "png"; "gif"; "webp"].

(** [photo.jpg] as the bucket answers for it. *)
Definition photo_meta : Worker.HeadObjectOutput :=
  Worker.mkHead (Some (quoted "abc123")) (Some 12345%N).

(** The bucket behind a cache whose store fails. *)
Definition put_down_env : Worker.Env :=
  Worker.mkEnv photo_head photo_get None (Some (mkError "CacheError")).

(** The answer to the first request of [photo.jpg]. *)
Definition photo_response : Response :=
  miss_response ".jpg" photo_meta (Worker.mkGet photo_bytes).

(** The entry a later lookup of [photo.jpg] gives back when the cache has
    added headers of its own to the stored ones, and a world whose cache
    holds it. *)
Definition photo_entry : CachedResponse :=
  mkCached 200 (StreamBody photo_bytes)
    (Headers_entries (headers photo_response) ++
     [("age", "0"); ("cf-cache-status", "HIT")]).

Definition photo_later_world : World :=
  mkWorld {[ "https://img.example/images/photo.jpg" := photo_entry ]} [].

(** ** Facts about the string methods *)

Section StringFacts.

Implicit Types (s t needle : string) (c : ascii).

Lemma prefix_append needle t : String.prefix needle (needle +:+ t) = true.
Proof.
  induction needle as [|a needle IH]; simpl.
  - by destruct t.
  - destruct (ascii_dec a a); [apply IH | congruence].
Qed.

Lemma includes_infix needle s t :
  JS.includes needle (s +:+ needle +:+ t) = true.
Proof.
  induction s as [|a s IH].
  - change ("" +:+ needle +:+ t) with (needle +:+ t).
    pose proof (prefix_append needle t) as H.
    destruct (needle +:+ t); cbn [JS.includes]; by rewrite H.
  - change (String a s +:+ needle +:+ t) with (String a (s +:+ needle +:+ t)).
    simpl JS.includes. rewrite IH. apply orb_true_r.
Qed.

(** [includes('..')] sees exactly two dots in a row. *)
Lemma includes_dotdot s : JS.includes ".." s = has_dotdot s.
Proof.
  induction s as [|a s IH]; [done|].
  simpl JS.includes. rewrite IH. simpl String.prefix.
  destruct (ascii_dec "." a) as [<-|Ha].
  - destruct s as [|b s]; [done|].
    destruct (ascii_dec "." b) as [<-|Hb].
    + by destruct s.
    + simpl. destruct b as [[] [] [] [] [] [] [] []]; try done.
  - simpl. destruct a as [[] [] [] [] [] [] [] []]; try done.
Qed.

Lemma split_nonempty c s : JS.split c s ≠ [].
Proof.
  destruct s as [|a s]; simpl; [done|].
  destruct (Ascii.eqb a c); [done|]. by destruct (JS.split c s).
Qed.

(** [split] yields one token more than there are separators. *)
Lemma split_length c s : length (JS.split c s) = S (count_char c s).
Proof.
  induction s as [|a s IH]; simpl; [done|].
  destruct (Ascii.eqb a c); simpl; [by rewrite IH|].
  destruct (JS.split c s) eqn:E; [by apply split_nonempty in E|].
  simpl in *. done.
Qed.

Lemma count_char_append c s t :
  count_char c (s +:+ t) = (count_char c s + count_char c t)%nat.
Proof.
  induction s as [|a s IH]; [done|].
  change (String a s +:+ t) with (String a (s +:+ t)). simpl.
  rewrite IH. lia.
Qed.

(** Splitting what [join] glued gives the tokens back, when no token
    holds the separator. *)
Lemma split_token c t :
  count_char c t = O → JS.split c t = [t].
Proof.
  induction t as [|a t IH]; simpl; [done|].
  destruct (Ascii.eqb a c); [done|]. intros H. by rewrite IH.
Qed.

Lemma split_token_sep c t s :
  count_char c t = O →
  JS.split c (t +:+ String c s) = t :: JS.split c s.
Proof.
  induction t as [|a t IH]; intros H.
  - change ("" +:+ String c s) with (String c s). simpl.
    by rewrite Ascii.eqb_refl.
  - change (String a t +:+ String c s) with (String a (t +:+ String c s)).
    simpl in *. destruct (Ascii.eqb a c); [done|]. by rewrite IH.
Qed.

Lemma split_join c (tokens : list string) :
  tokens ≠ [] → Forall (λ t, count_char c t = O) tokens →
  JS.split c (join c tokens) = tokens.
Proof.
  intros Hne Hall. induction Hall as [|t ts Ht Hts IH]; [done|].
  destruct ts as [|t' ts]; simpl join.
  - by apply split_token.
  - rewrite split_token_sep by done. f_equal. by apply IH.
Qed.

Lemma lastIndexOf_from_absent c s i found :
  count_char c s = O → JS.lastIndexOf_from c s i found = found.
Proof.
  revert i found. induction s as [|a s IH]; intros i found; simpl; [done|].
  destruct (Ascii.eqb a c); [done|]. intros H. by rewrite IH.
Qed.

Lemma lastIndexOf_absent c s : count_char c s = O → JS.lastIndexOf c s = -1.
Proof. apply lastIndexOf_from_absent. Qed.

Lemma length_append s t :
  String.length (s +:+ t) = (String.length s + String.length t)%nat.
Proof.
  induction s as [|a s IH]; [done|].
  change (String a s +:+ t) with (String a (s +:+ t)). simpl. by rewrite IH.
Qed.

Lemma drop_append s t : JS.drop (String.length s) (s +:+ t) = t.
Proof.
  induction s as [|a s IH]; [done|].
  change (String a s +:+ t) with (String a (s +:+ t)). by simpl.
Qed.

(** A non-empty string ends in a last character. *)
Lemma string_snoc s :
  s ≠ "" → ∃ pre c, s = pre +:+ String c "".
Proof.
  induction s as [|a s IH]; [done|]. intros _.
  destruct s as [|b s].
  - by exists "", a.
  - destruct IH as (pre & c & ->); [done|]. by exists (String a pre), c.
Qed.

(** [slice(-1)] is the last character. *)
Lemma slice_minus_one pre c : JS.slice (pre +:+ String c "") (-1) = String c "".
Proof.
  unfold JS.slice, JS.length. rewrite length_append. simpl String.length.
  replace (Z.to_nat _) with (String.length pre).
  - apply drop_append.
  - simpl. lia.
Qed.

Lemma toLowerCase_length s : String.length (JS.toLowerCase s) = String.length s.
Proof. induction s; simpl; congruence. Qed.

End StringFacts.

(** ** The filename validator *)

Section Validator.

Implicit Types (s : string) (c : ascii).

Lemma worker_class c :
  RegExp.class_matches (RegExp.atoms Worker.filename_re) c = allowed_char c.
Proof. destruct c as [[] [] [] [] [] [] [] []]; reflexivity. Qed.

Lemma bun_class c :
  RegExp.class_matches (RegExp.atoms BunServer.filename_re) c = allowed_char c.
Proof. destruct c as [[] [] [] [] [] [] [] []]; reflexivity. Qed.

Lemma test_class (r : RegExp.t) s :
  (∀ c, RegExp.class_matches (RegExp.atoms r) c = allowed_char c) →
  RegExp.test r s =
  (RegExp.lo r <=? String.length s)%nat && (String.length s <=? RegExp.hi r)%nat &&
  forallb allowed_char (list_ascii_of_string s).
Proof.
  intros Hcls. unfold RegExp.test. f_equal.
  induction (list_ascii_of_string s) as [|a l IH]; simpl; [done|].
  by rewrite Hcls, IH.
Qed.

Lemma tokens_le_10 s :
  (length (JS.split "." s) <=? 10)%nat = (count_char "." s <=? 9)%nat.
Proof. rewrite split_length. done. Qed.

Lemma worker_validate_reference s :
  Worker.validateFilename s = validate_reference s.
Proof.
  unfold Worker.validateFilename, validate_reference.
  rewrite (test_class _ _ worker_class), includes_dotdot, tokens_le_10. done.
Qed.

Lemma plain_validate_reference s :
  PlainWorker.validateFilename s = validate_reference s.
Proof.
  unfold PlainWorker.validateFilename, validate_reference.
  rewrite (test_class _ _ worker_class), includes_dotdot, tokens_le_10. done.
Qed.

Lemma bun_validate_reference s :
  BunServer.validateFilename s = validate_reference s.
Proof.
  unfold BunServer.validateFilename, validate_reference.
  rewrite (test_class _ _ bun_class), includes_dotdot, tokens_le_10. done.
Qed.

(** What an accepted name looks like. *)
Lemma validate_reference_true s :
  validate_reference s = true →
  (1 ≤ String.length s ≤ 256)%nat ∧
  Forall (λ c, allowed_char c = true) (list_ascii_of_string s) ∧
  has_dotdot s = false ∧ (count_char "." s ≤ 9)%nat.
Proof.
  unfold validate_reference. intros H.
  repeat (apply andb_prop in H as [H ?]).
  repeat split.
  - by apply Nat.leb_le.
  - by apply Nat.leb_le.
  - apply Forall_forall. intros c Hc%list_elem_of_In.
    eapply forallb_forall in Hc; eauto.
  - by apply negb_true_iff.
  - by apply Nat.leb_le.
Qed.

(** A rejected name is answered 400 before any call is made. *)
Lemma worker_rejects env req w :
  Worker.validateFilename (param_filename req) = false →
  Worker.images env req w = (Resolved (c_text "Invalid filename format" 400), w).
Proof. intros H. unfold Worker.images. by rewrite H. Qed.

Lemma plain_rejects env req w :
  PlainWorker.validateFilename (param_filename req) = false →
  PlainWorker.images env req w = (Resolved (c_text "Invalid filename format" 400), w).
Proof. intros H. unfold PlainWorker.images. by rewrite H. Qed.

Lemma bun_rejects env req w :
  BunServer.validateFilename (param_filename req) = false →
  BunServer.images env req w = (Resolved (c_text "Invalid filename format" 400), w).
Proof. intros H. unfold BunServer.images. by rewrite H. Qed.

End Validator.

(** C10. The validators of the three files return the same boolean on every
    input string, and this boolean is the one of the contract: 1 to 256
    characters of [[A-Za-z0-9_\-.]], no [..], at most 10 dot-delimited
    tokens. *)
Theorem validators_agree (s : string) :
  Worker.validateFilename s = PlainWorker.validateFilename s ∧
  PlainWorker.validateFilename s = BunServer.validateFilename s ∧
  BunServer.validateFilename s = validate_reference s.
Proof.
  rewrite worker_validate_reference, plain_validate_reference,
    bun_validate_reference. done.
Qed.

(** The name [a.b.c.d.e.f.g.h.i.j] splits on [.] into exactly 10 tokens, all
    its characters are allowed, it is 19 characters long, and the validator
    accepts it: 10 tokens are not rejected. *)
Lemma ten_tokens_accepted :
  let s := "a.b.c.d.e.f.g.h.i.j" in
  (10 ≤ length (JS.split "." s))%nat ∧
  Forall (λ c, allowed_char c = true) (list_ascii_of_string s) ∧
  (String.length s ≤ 256)%nat ∧
  ¬ (Worker.validateFilename s = false) ∧
  ¬ (BunServer.validateFilename s = false) ∧
  ∀ env w, Worker.images env (mkRequest "u" s) w ≠
           (Resolved (c_text "Invalid filename format" 400), w).
Proof.
  cbv zeta. repeat split.
  - vm_compute. lia.
  - repeat constructor.
  - vm_compute. lia.
  - by vm_compute.
  - by vm_compute.
  - intros env w. unfold Worker.images.
    replace (Worker.validateFilename _) with true by (by vm_compute).
    replace (ALLOWED_EXTENSIONS_has _) with false by (by vm_compute).
    simpl. intros [=].
Qed.

(** C4, amended. A filename that splits on [.] into more than 10 tokens is
    rejected by the validator of each file, whatever its characters and its
    length, and the request is answered 400. *)
Theorem more_than_ten_tokens_rejected (s : string)
    (Htokens : (10 < length (JS.split "." s))%nat) :
  Worker.validateFilename s = false ∧
  PlainWorker.validateFilename s = false ∧
  BunServer.validateFilename s = false ∧
  (∀ env u w, Worker.images env (mkRequest u s) w =
     (Resolved (c_text "Invalid filename format" 400), w)) ∧
  (∀ env u w, PlainWorker.images env (mkRequest u s) w =
     (Resolved (c_text "Invalid filename format" 400), w)) ∧
  (∀ env u w, BunServer.images env (mkRequest u s) w =
     (Resolved (c_text "Invalid filename format" 400), w)).
Proof.
  assert (Hw : Worker.validateFilename s = false).
  { unfold Worker.validateFilename.
    apply andb_false_iff. right. apply Nat.leb_gt. lia. }
  assert (Hp : PlainWorker.validateFilename s = false).
  { by rewrite plain_validate_reference, <- worker_validate_reference. }
  assert (Hb : BunServer.validateFilename s = false).
  { by rewrite bun_validate_reference, <- worker_validate_reference. }
  repeat split; try done; intros env u w.
  - by apply worker_rejects.
  - by apply plain_rejects.
  - by apply bun_rejects.
Qed.

Lemma more_than_ten_tokens_rejected_witness :
  (10 < length (JS.split "." "a.b.c.d.e.f.g.h.i.j.k"))%nat ∧
  Worker.validateFilename "a.b.c.d.e.f.g.h.i.j.k" = false.
Proof.
  split; [vm_compute; lia|].
  apply (more_than_ten_tokens_rejected "a.b.c.d.e.f.g.h.i.j.k").
  vm_compute; lia.
Defined.

Lemma validate_reference_unsafe (s : string) :
  (∃ a b, s = a +:+ ".." +:+ b) ∨ s = "" ∨ (256 < String.length s)%nat ∨
  (∃ c, In c (list_ascii_of_string s) ∧ allowed_char c = false) →
  validate_reference s = false.
Proof.
  unfold validate_reference.
  intros [(a & b & ->) | [-> | [Hlen | (c & Hin & Hc)]]].
  - rewrite <- includes_dotdot, includes_infix. simpl.
    by rewrite andb_false_r.
  - done.
  - apply Nat.leb_gt in Hlen. rewrite Hlen. by rewrite andb_false_r.
  - assert (forallb allowed_char (list_ascii_of_string s) = false) as ->.
    { apply not_true_is_false. intros Hall.
      eapply forallb_forall in Hall; eauto. congruence. }
    by rewrite andb_false_r.
Qed.

(** C8. A string that contains [..], or is empty, or is longer than 256
    characters, or holds a character outside [[A-Za-z0-9_\-.]], is rejected
    by the validator of each file, whatever its extension, and the request
    is answered 400 without any call to the store or the cache. *)
Theorem unsafe_names_rejected (s : string)
    (Hunsafe : (∃ a b, s = a +:+ ".." +:+ b) ∨ s = "" ∨
               (256 < String.length s)%nat ∨
               (∃ c, In c (list_ascii_of_string s) ∧ allowed_char c = false)) :
  Worker.validateFilename s = false ∧
  PlainWorker.validateFilename s = false ∧
  BunServer.validateFilename s = false ∧
  (∀ env u w, Worker.images env (mkRequest u s) w =
     (Resolved (c_text "Invalid filename format" 400), w)) ∧
  (∀ env u w, PlainWorker.images env (mkRequest u s) w =
     (Resolved (c_text "Invalid filename format" 400), w)) ∧
  (∀ env u w, BunServer.images env (mkRequest u s) w =
     (Resolved (c_text "Invalid filename format" 400), w)).
Proof.
  apply validate_reference_unsafe in Hunsafe.
  assert (Hw : Worker.validateFilename s = false)
    by (by rewrite worker_validate_reference).
  assert (Hp : PlainWorker.validateFilename s = false)
    by (by rewrite plain_validate_reference).
  assert (Hb : BunServer.validateFilename s = false)
    by (by rewrite bun_validate_reference).
  repeat split; try done; intros env u w.
  - by apply worker_rejects.
  - by apply plain_rejects.
  - by apply bun_rejects.
Qed.

Lemma unsafe_names_rejected_witness :
  Worker.validateFilename "../secret.png" = false ∧
  Worker.validateFilename "" = false ∧
  Worker.validateFilename "a b.png" = false ∧
  (Worker.images photo_env (mkRequest "u" "../secret.png") empty_world).1 =
    Resolved (c_text "Invalid filename format" 400).
Proof.
  split; [|split; [|split]].
  - apply (unsafe_names_rejected "../secret.png").
    left. exists "", "/secret.png". reflexivity.
  - apply (unsafe_names_rejected "").
    right. left. reflexivity.
  - apply (unsafe_names_rejected "a b.png").
    right. right. right. exists " "%char. split; [simpl; tauto | reflexivity].
  - destruct (unsafe_names_rejected "../secret.png") as (_ & _ & _ & H & _).
    + left. exists "", "/secret.png". reflexivity.
    + rewrite H. reflexivity.
Defined.

(** ** The extension classifier *)

Section Classifier.

Implicit Types (s t pre suf ext : string) (c : ascii).

Lemma allowed_extension_cases ext :
  ALLOWED_EXTENSIONS_has ext = true ↔
  ext = ".jpg" ∨ ext = ".jpeg" ∨ ext = ".png" ∨ ext = ".gif" ∨ ext = ".webp".
Proof.
  unfold ALLOWED_EXTENSIONS_has, ALLOWED_EXTENSIONS.
  rewrite bool_decide_eq_true, !elem_of_union, !elem_of_singleton. tauto.
Qed.

(** The table has an entry for each allowed extension, and nothing else. *)
Lemma content_type_of_allowed ext :
  ALLOWED_EXTENSIONS_has ext = true →
  ∃ ct, CONTENT_TYPES !! ext = Some ct ∧ ct ∈ IMAGE_TYPES.
Proof.
  intros H%allowed_extension_cases.
  destruct H as [-> | [-> | [-> | [-> | ->]]]];
    eexists; (split; [reflexivity | unfold IMAGE_TYPES; set_solver]).
Qed.

Lemma allowed_extension_length ext :
  ALLOWED_EXTENSIONS_has ext = true → (4 ≤ String.length ext)%nat.
Proof.
  intros H%allowed_extension_cases.
  destruct H as [-> | [-> | [-> | [-> | ->]]]]; simpl; lia.
Qed.

Lemma count_char_absent c s :
  ¬ In c (list_ascii_of_string s) → count_char c s = O.
Proof.
  induction s as [|a s IH]; simpl; [done|]. intros H.
  destruct (Ascii.eqb a c) eqn:E.
  - apply Ascii.eqb_eq in E. tauto.
  - rewrite IH; [done|]. tauto.
Qed.

(** Without a dot, [lastIndexOf] is [-1] and [slice(-1)] keeps the last
    character only. *)
Lemma ext_of_dotless pre c :
  ¬ In "."%char (list_ascii_of_string (pre +:+ String c "")) →
  ext_of (pre +:+ String c "") = String (JS.lower_char c) "".
Proof.
  intros H%count_char_absent. unfold ext_of.
  rewrite (lastIndexOf_absent _ _ H), slice_minus_one. done.
Qed.

Lemma lastIndexOf_from_last c pre suf i found :
  count_char c suf = O →
  JS.lastIndexOf_from c (pre +:+ String c suf) i found =
  i + Z.of_nat (String.length pre).
Proof.
  intros Hsuf. revert i found. induction pre as [|a pre IH]; intros i found.
  - change ("" +:+ String c suf) with (String c suf). simpl.
    rewrite Ascii.eqb_refl, lastIndexOf_from_absent by done. lia.
  - change (String a pre +:+ String c suf) with (String a (pre +:+ String c suf)).
    cbn [JS.lastIndexOf_from String.length]. rewrite IH. lia.
Qed.

Lemma slice_at_length pre t :
  JS.slice (pre +:+ t) (Z.of_nat (String.length pre)) = t.
Proof.
  unfold JS.slice, JS.length. rewrite length_append.
  destruct (Z.ltb_spec (Z.of_nat (String.length pre)) 0) as [?|_]; [lia|].
  rewrite Z.min_l by lia. rewrite Nat2Z.id. apply drop_append.
Qed.

Lemma ext_of_dotted pre suf :
  ¬ In "."%char (list_ascii_of_string suf) →
  ext_of (pre +:+ "." +:+ suf) = "." +:+ JS.toLowerCase suf.
Proof.
  intros Hsuf%count_char_absent.
  change ("." +:+ suf) with (String "."%char suf).
  unfold ext_of, JS.lastIndexOf.
  rewrite lastIndexOf_from_last by done. simpl (0 + _).
  by rewrite slice_at_length.
Qed.

(** A name has no dot, or splits at its last dot. *)
Lemma last_dot_cases s :
  ¬ In "."%char (list_ascii_of_string s) ∨ ∃ suf, last_dot_suffix s suf.
Proof.
  induction s as [|a s [IH | (suf & pre & -> & Hsuf)]].
  - left. by intros [].
  - destruct (ascii_dec a ".") as [-> | Hne].
    + right. exists s, "". by split.
    + left. simpl. intros [H | H]; [by apply Hne | by apply IH].
  - right. exists suf, (String a pre). by split.
Qed.

(** An allow-listed extension was cut at the last dot of the name. *)
Lemma allowed_suffix s :
  ALLOWED_EXTENSIONS_has (ext_of s) = true →
  ∃ suf, last_dot_suffix s suf ∧ ext_of s = "." +:+ JS.toLowerCase suf.
Proof.
  intros Ha. destruct (last_dot_cases s) as [Hno | (suf & Hsuf)].
  - exfalso. apply allowed_extension_length in Ha.
    destruct (decide (s = "")) as [-> | (pre & c & ->)%string_snoc].
    + vm_compute in Ha. lia.
    + rewrite ext_of_dotless in Ha by done. simpl in Ha. lia.
  - exists suf. split; [done|].
    destruct Hsuf as (pre & -> & Hsuf). by apply ext_of_dotted.
Qed.

Lemma worker_unsupported env req w :
  Worker.validateFilename (param_filename req) = true →
  ALLOWED_EXTENSIONS_has (ext_of (param_filename req)) = false →
  Worker.images env req w = (Resolved (c_text "Unsupported file type" 415), w).
Proof. intros Hv Ha. unfold Worker.images. by rewrite Hv, Ha. Qed.

Lemma plain_unsupported env req w :
  PlainWorker.validateFilename (param_filename req) = true →
  ALLOWED_EXTENSIONS_has (ext_of (param_filename req)) = false →
  PlainWorker.images env req w = (Resolved (c_text "Unsupported file type" 415), w).
Proof. intros Hv Ha. unfold PlainWorker.images. by rewrite Hv, Ha. Qed.

Lemma bun_unsupported env req w :
  BunServer.validateFilename (param_filename req) = true →
  ALLOWED_EXTENSIONS_has (ext_of (param_filename req)) = false →
  BunServer.images env req w = (Resolved (c_text "Unsupported file type" 415), w).
Proof. intros Hv Ha. unfold BunServer.images. by rewrite Hv, Ha. Qed.

End Classifier.

(** The validated name [abc] holds no dot, and the extension the classifier
    computes for it is its last character [c], not the whole string. *)
Lemma dotless_extension_is_not_whole_name :
  Worker.validateFilename "abc" = true ∧
  ¬ In "."%char (list_ascii_of_string "abc") ∧
  ext_of "abc" = "c" ∧
  ¬ (ext_of "abc" = "abc").
Proof.
  repeat split; try reflexivity.
  - simpl. intros [H | [H | [H | []]]]; discriminate H.
  - discriminate.
Qed.

(** C5, amended. For a validated filename without a [.], the extension the
    classifier computes is the last character of the name, in lower case
    ([lastIndexOf] is [-1], and [slice(-1)] keeps one character); it is not
    in the allow-list, and the request is answered 415 by each handler
    without any call to the store or the cache. *)
Theorem dotless_name_unsupported (filename : string)
    (Hvalid : Worker.validateFilename filename = true)
    (Hnodot : ¬ In "."%char (list_ascii_of_string filename)) :
  (∃ pre c, filename = pre +:+ String c "" ∧
            ext_of filename = String (JS.lower_char c) "") ∧
  ALLOWED_EXTENSIONS_has (ext_of filename) = false ∧
  (∀ env u w, Worker.images env (mkRequest u filename) w =
     (Resolved (c_text "Unsupported file type" 415), w)) ∧
  (∀ env u w, PlainWorker.images env (mkRequest u filename) w =
     (Resolved (c_text "Unsupported file type" 415), w)) ∧
  (∀ env u w, BunServer.images env (mkRequest u filename) w =
     (Resolved (c_text "Unsupported file type" 415), w)).
Proof.
  assert (Hne : filename ≠ "").
  { intros ->. discriminate Hvalid. }
  destruct (string_snoc _ Hne) as (pre & c & ->).
  pose proof (ext_of_dotless _ _ Hnodot) as Hext.
  assert (Hno : ALLOWED_EXTENSIONS_has (ext_of (pre +:+ String c "")) = false).
  { apply not_true_is_false. intros Ha%allowed_extension_length.
    rewrite Hext in Ha. simpl in Ha. lia. }
  split; [by exists pre, c|]. split; [done|].
  repeat split; intros env u w.
  - by apply worker_unsupported.
  - apply plain_unsupported; [|done]. simpl.
    by rewrite plain_validate_reference, <- worker_validate_reference.
  - apply bun_unsupported; [|done]. simpl.
    by rewrite bun_validate_reference, <- worker_validate_reference.
Qed.

Lemma dotless_name_unsupported_witness :
  ALLOWED_EXTENSIONS_has (ext_of "README") = false ∧
  (Worker.images photo_env (mkRequest "u" "README") empty_world).1 =
    Resolved (c_text "Unsupported file type" 415).
Proof.
  assert (Hnodot : ¬ In "."%char (list_ascii_of_string "README")).
  { simpl. intros [H | [H | [H | [H | [H | [H | []]]]]]]; discriminate H. }
  destruct (dotless_name_unsupported "README" eq_refl Hnodot)
    as (_ & Hno & Hw & _).
  split; [exact Hno|]. rewrite Hw. reflexivity.
Defined.

(** ** The response constructor *)

Section NewResponse.

Implicit Types (ext : string) (h : Worker.HeadObjectOutput)
  (g : Worker.GetObjectOutput).

(** With both fields of the head metadata the record of the cached Worker
    has a value for every header, and the response is built. *)
Lemma newResponse_miss ext h g :
  ALLOWED_EXTENSIONS_has ext = true → has_metadata h = true →
  c_newResponse (Worker.Body g) 200
    {[ "Content-Type" := CONTENT_TYPES !! ext;
       "Cache-Control" := Some "public, max-age=604800";
       "ETag" := JS.remove_all DQUOTE <$> Worker.ETag h;
       "Content-Length" := JS.toString <$> Worker.ContentLength h;
       "X-Content-Type-Options" := Some "nosniff";
       "X-Cache-Status" := Some "MISS" ]} =
  Resolved (miss_response ext h g).
Proof.
  intros (ct & Hct & _)%content_type_of_allowed Hmeta.
  unfold c_newResponse, miss_response. rewrite Hct.
  destruct h as [[tag|] [len|]]; try discriminate Hmeta.
  replace (has_undefined _) with false by (by vm_compute). done.
Qed.

(** Without one of them a header has no value, and the constructor throws. *)
Lemma newResponse_miss_failed ext h g :
  ALLOWED_EXTENSIONS_has ext = true → has_metadata h = false →
  c_newResponse (Worker.Body g) 200
    {[ "Content-Type" := CONTENT_TYPES !! ext;
       "Cache-Control" := Some "public, max-age=604800";
       "ETag" := JS.remove_all DQUOTE <$> Worker.ETag h;
       "Content-Length" := JS.toString <$> Worker.ContentLength h;
       "X-Content-Type-Options" := Some "nosniff";
       "X-Cache-Status" := Some "MISS" ]} =
  Rejected TypeError.
Proof.
  intros (ct & Hct & _)%content_type_of_allowed Hmeta.
  unfold c_newResponse. rewrite Hct.
  destruct h as [[tag|] [len|]]; try discriminate Hmeta;
    replace (has_undefined _) with true by (by vm_compute); done.
Qed.

Lemma newResponse_plain ext h g :
  ALLOWED_EXTENSIONS_has ext = true → has_metadata h = true →
  c_newResponse (Worker.Body g) 200
    {[ "Content-Type" := CONTENT_TYPES !! ext;
       "Cache-Control" := Some "public, max-age=604800";
       "ETag" := JS.remove_all DQUOTE <$> Worker.ETag h;
       "Content-Length" := JS.toString <$> Worker.ContentLength h;
       "X-Content-Type-Options" := Some "nosniff" ]} =
  Resolved (plain_response ext h g).
Proof.
  intros (ct & Hct & _)%content_type_of_allowed Hmeta.
  unfold c_newResponse, plain_response. rewrite Hct.
  destruct h as [[tag|] [len|]]; try discriminate Hmeta.
  replace (has_undefined _) with false by (by vm_compute). done.
Qed.

Lemma newResponse_plain_failed ext h g :
  ALLOWED_EXTENSIONS_has ext = true → has_metadata h = false →
  c_newResponse (Worker.Body g) 200
    {[ "Content-Type" := CONTENT_TYPES !! ext;
       "Cache-Control" := Some "public, max-age=604800";
       "ETag" := JS.remove_all DQUOTE <$> Worker.ETag h;
       "Content-Length" := JS.toString <$> Worker.ContentLength h;
       "X-Content-Type-Options" := Some "nosniff" ]} =
  Rejected TypeError.
Proof.
  intros (ct & Hct & _)%content_type_of_allowed Hmeta.
  unfold c_newResponse. rewrite Hct.
  destruct h as [[tag|] [len|]]; try discriminate Hmeta;
    replace (has_undefined _) with true by (by vm_compute); done.
Qed.

(** The record of the Bun server has a value for every header. *)
Lemma newResponse_bun ext (st : BunServer.S3Stats) (bytes : list Byte.byte) :
  ALLOWED_EXTENSIONS_has ext = true →
  c_newResponse bytes 200
    {[ "Content-Type" := CONTENT_TYPES !! ext;
       "Cache-Control" := Some "public, max-age=604800";
       "ETag" := Some (BunServer.etag st);
       "X-Content-Type-Options" := Some "nosniff" ]} =
  Resolved (bun_response ext st bytes).
Proof.
  intros (ct & Hct & _)%content_type_of_allowed.
  unfold c_newResponse, bun_response. rewrite Hct.
  replace (has_undefined _) with false by (by vm_compute). done.
Qed.

Lemma catch_TypeError :
  catch_response TypeError = c_text "Internal Server Error" 500 ∧
  catch_log TypeError = [ConsoleError TypeError].
Proof. done. Qed.

End NewResponse.

(** ** The pipeline of the cached Worker, path by path *)

Section WorkerPipeline.

Variables (env : Worker.Env) (req : Request) (w : World).

Local Abbreviation filename := (param_filename req).
Local Abbreviation u := (url req).

Hypothesis Hvalid : Worker.validateFilename filename = true.
Hypothesis Hallowed : ALLOWED_EXTENSIONS_has (ext_of filename) = true.

Ltac run_handler :=
  unfold Worker.images, try_catch, Worker.s3_send_head, Worker.s3_send_get,
    Worker.cache_match, Worker.cache_put, waitUntil, console_error,
    read_cache, write_cache, throw, settle, emit, mbind, mret, M_bind, M_ret;
  rewrite Hvalid, Hallowed; cbn [negb].

Ltac step := cbn -[c_newResponse insert singletonM fmap].

(** The head call comes first; if it throws, nothing else is called. *)
Lemma worker_head_rejected e :
  Worker.head_object env filename = Rejected e →
  Worker.images env req w =
    (Resolved (catch_response e),
     after w (cache w) (HeadObject filename :: catch_log e)).
Proof.
  intros Hhead. run_handler. cbn. rewrite Hhead.
  unfold catch_response, catch_log, after.
  destruct (String.eqb (name e) "NotFound"); cbn; [done|].
  by rewrite <- app_assoc.
Qed.

(** A lookup that fails ends in the [catch] block, before any get. *)
Lemma worker_lookup_failed h e :
  Worker.head_object env filename = Resolved h →
  Worker.cache_match_failure env = Some e →
  Worker.images env req w =
    (Resolved (catch_response e),
     after w (cache w) (HeadObject filename :: CacheMatch u :: catch_log e)).
Proof.
  intros Hhead Hfail. run_handler. cbn. rewrite Hhead, Hfail.
  unfold catch_response, catch_log, after.
  destruct (String.eqb (name e) "NotFound"); cbn; by rewrite <- !app_assoc.
Qed.

Lemma worker_hit h cached :
  Worker.head_object env filename = Resolved h →
  Worker.cache_match_failure env = None →
  cache w !! u = Some cached →
  Worker.images env req w =
    (Resolved (hit_response cached),
     after w (cache w) [HeadObject filename; CacheMatch u]).
Proof.
  intros Hhead Hfail Hc. run_handler. cbn. rewrite Hhead, Hfail. cbn.
  rewrite Hc. unfold after. by rewrite <- !app_assoc.
Qed.

Lemma worker_get_rejected h e :
  Worker.head_object env filename = Resolved h →
  Worker.cache_match_failure env = None →
  cache w !! u = None →
  Worker.get_object env filename = Rejected e →
  Worker.images env req w =
    (Resolved (catch_response e),
     after w (cache w)
       (HeadObject filename :: CacheMatch u :: GetObject filename :: catch_log e)).
Proof.
  intros Hhead Hfail Hc Hget. run_handler. cbn. rewrite Hhead, Hfail. cbn.
  rewrite Hc, Hget. unfold catch_response, catch_log, after.
  destruct (String.eqb (name e) "NotFound"); cbn; by rewrite <- !app_assoc.
Qed.

(** A head output without tag or length makes the response constructor
    throw, after the get call: the answer is the 500 of the [catch] block,
    and nothing is put into the cache. *)
Lemma worker_build_failed h g :
  Worker.head_object env filename = Resolved h →
  Worker.cache_match_failure env = None →
  cache w !! u = None →
  Worker.get_object env filename = Resolved g →
  has_metadata h = false →
  Worker.images env req w =
    (Resolved (catch_response TypeError),
     after w (cache w)
       (HeadObject filename :: CacheMatch u :: GetObject filename ::
        catch_log TypeError)).
Proof.
  intros Hhead Hfail Hc Hget Hmeta. run_handler. step. rewrite Hhead, Hfail.
  step. rewrite Hc, Hget. step.
  rewrite (newResponse_miss_failed _ h g Hallowed Hmeta).
  unfold after. cbn. by rewrite <- !app_assoc.
Qed.

Lemma worker_miss h g :
  Worker.head_object env filename = Resolved h →
  Worker.cache_match_failure env = None →
  cache w !! u = None →
  Worker.get_object env filename = Resolved g →
  has_metadata h = true →
  let r := miss_response (ext_of filename) h g in
  Worker.images env req w =
    (Resolved r,
     after w (cache_after_put env u r (cache w))
       [HeadObject filename; CacheMatch u; GetObject filename; CachePut u r]).
Proof.
  intros Hhead Hfail Hc Hget Hmeta. run_handler. step. rewrite Hhead, Hfail.
  step. rewrite Hc, Hget. step.
  rewrite (newResponse_miss _ h g Hallowed Hmeta).
  unfold after, cache_after_put.
  destruct (Worker.cache_put_failure env); cbn; by rewrite <- !app_assoc.
Qed.

End WorkerPipeline.

(** The handler always answers, along one of the eight paths. *)
Lemma worker_run (env : Worker.Env) (req : Request) (w : World) :
  ∃ r w', Worker.images env req w = (Resolved r, w') ∧ WorkerRun env req w r w'.
Proof.
  destruct (Worker.validateFilename (param_filename req)) eqn:Hv.
  2: { eexists _, _. split; [by apply worker_rejects | by constructor]. }
  destruct (ALLOWED_EXTENSIONS_has (ext_of (param_filename req))) eqn:Ha.
  2: { eexists _, _. split; [by apply worker_unsupported | by constructor]. }
  destruct (Worker.head_object env (param_filename req)) as [h|e] eqn:Hhead.
  2: { eexists _, _. split; [by apply worker_head_rejected | by constructor]. }
  destruct (Worker.cache_match_failure env) as [e|] eqn:Hfail.
  { eexists _, _. split; [by eapply worker_lookup_failed | by econstructor]. }
  destruct (cache w !! url req) as [cached|] eqn:Hc.
  { eexists _, _. split; [by eapply worker_hit | by econstructor]. }
  destruct (Worker.get_object env (param_filename req)) as [g|e] eqn:Hget.
  2: { eexists _, _. split; [by eapply worker_get_rejected | by econstructor]. }
  destruct (has_metadata h) eqn:Hmeta.
  - eexists _, _. split; [by eapply worker_miss | by econstructor].
  - eexists _, _. split; [by eapply worker_build_failed | by eapply RunBuildFailed].
Qed.

Lemma worker_run_inv (env : Worker.Env) (req : Request) (w : World) out w' :
  Worker.images env req w = (out, w') →
  ∃ r, out = Resolved r ∧ WorkerRun env req w r w'.
Proof.
  destruct (worker_run env req w) as (r & w1 & Heq & Hrun).
  rewrite Heq. intros [= <- <-]. eauto.
Qed.

Lemma new_events_after w c evs : new_events w (after w c evs) = evs.
Proof. unfold new_events, after. simpl. by rewrite drop_app_length. Qed.

(** ** Order of the calls *)

Lemma photo_req_valid :
  Worker.validateFilename (param_filename photo_req) = true ∧
  ALLOWED_EXTENSIONS_has (ext_of (param_filename photo_req)) = true.
Proof. split; reflexivity. Qed.

Lemma warm_world_cached : is_Some (cache warm_world !! url photo_req).
Proof. eexists. vm_compute. reflexivity. Qed.

(** [photo.jpg] is in the cache and the cache works, yet the run of its
    request begins with a head call to the store, and only then looks the
    cache up: the request is not answered from the cache alone. *)
Lemma cached_photo_still_calls_store :
  new_events warm_world (Worker.images photo_env photo_req warm_world).2 =
    [HeadObject "photo.jpg"; CacheMatch "https://img.example/images/photo.jpg"] ∧
  (∃ r, (Worker.images photo_env photo_req warm_world).1 = Resolved r ∧
        headers r !! "x-cache-status" = Some (Some "HIT")) ∧
  ¬ answered_from_cache_alone photo_env photo_req warm_world.
Proof.
  split; [by vm_compute|]. split.
  - eexists. split; [by vm_compute|]. by vm_compute.
  - intros H.
    specialize (H (proj1 photo_req_valid) (proj2 photo_req_valid)
                  eq_refl warm_world_cached).
    vm_compute in H. discriminate H.
Qed.

Lemma catch_log_no_call e ev :
  ev ∈ catch_log e → ev = ConsoleError e.
Proof.
  unfold catch_log. destruct (String.eqb (name e) "NotFound").
  - by intros ?%elem_of_nil.
  - by intros ->%list_elem_of_singleton.
Qed.

Lemma catch_log_no_lookup e u' : CacheMatch u' ∉ catch_log e.
Proof. by intros [=]%catch_log_no_call. Qed.

(** C1, amended. For every request that passes validation and
    classification the head call to the store is issued first.  The cache
    lookup is performed only after the head call succeeded: when the head
    call succeeds the lookup is the next call, once; when it throws there
    is no lookup and no further call.  The lookup precedes the get call,
    which is the only store call after it; and when the lookup hits, the
    answer is the one rebuilt from the cache, after exactly that one head
    call and without any get call or cache store. *)
Theorem head_then_lookup_then_get (env : Worker.Env) (req : Request)
    (w w' : World) (out : Outcome Response)
    (Hrun : Worker.images env req w = (out, w'))
    (Hvalid : Worker.validateFilename (param_filename req) = true)
    (Hallowed : ALLOWED_EXTENSIONS_has (ext_of (param_filename req)) = true) :
  ∃ rest,
    new_events w w' = HeadObject (param_filename req) :: rest ∧
    (∀ h, Worker.head_object env (param_filename req) = Resolved h →
       ∃ tail, rest = CacheMatch (url req) :: tail ∧
               ∀ u', CacheMatch u' ∉ tail) ∧
    (∀ e, Worker.head_object env (param_filename req) = Rejected e →
       rest = catch_log e ∧ ∀ u', CacheMatch u' ∉ rest) ∧
    (∀ ev, ev ∈ rest → is_store_call ev = true →
       ev = GetObject (param_filename req) ∧
       ∃ tail, rest = CacheMatch (url req) :: GetObject (param_filename req) :: tail ∧
               Forall (λ ev', is_store_call ev' = false) tail) ∧
    (∀ h cached,
       Worker.head_object env (param_filename req) = Resolved h →
       Worker.cache_match_failure env = None →
       cache w !! url req = Some cached →
       out = Resolved (hit_response cached) ∧ rest = [CacheMatch (url req)]).
Proof.
  apply worker_run_inv in Hrun as (r & -> & Hrun).
  inversion Hrun; subst; try congruence; rewrite new_events_after;
    eexists; (split; [reflexivity|]).
  - (* head throws *)
    split; [intros; congruence|]. split.
    { intros e' He'. assert (e' = e) as -> by congruence.
      split; [done|]. intros u'. apply catch_log_no_lookup. }
    split; [|intros; congruence].
    intros ev ->%catch_log_no_call [=].
  - (* lookup fails *)
    split.
    { intros _ _. eexists. split; [done|]. intros u'. apply catch_log_no_lookup. }
    split; [intros; congruence|]. split; [|intros; congruence].
    intros ev [-> | ->%catch_log_no_call]%elem_of_cons [=].
  - (* hit *)
    split.
    { intros _ _. eexists. split; [done|]. by intros u' ?%elem_of_nil. }
    split; [intros; congruence|]. split.
    + intros ev ->%list_elem_of_singleton [=].
    + intros h' cached' ? ? ?. split; congruence.
  - (* get throws *)
    split.
    { intros _ _. eexists. split; [done|].
      intros u' [[=] | ?%catch_log_no_lookup]%elem_of_cons. done. }
    split; [intros; congruence|]. split; [|intros; congruence].
    intros ev [-> | [-> | ->%catch_log_no_call]%elem_of_cons]%elem_of_cons;
      intros [=]. split; [done|]. eexists. split; [done|].
    apply Forall_forall. by intros ev' ->%catch_log_no_call.
  - (* the response constructor throws *)
    split.
    { intros _ _. eexists. split; [done|].
      intros u' [[=] | ?%catch_log_no_lookup]%elem_of_cons. done. }
    split; [intros; congruence|]. split; [|intros; congruence].
    intros ev [-> | [-> | ->%catch_log_no_call]%elem_of_cons]%elem_of_cons;
      intros [=]. split; [done|]. eexists. split; [done|].
    apply Forall_forall. by intros ev' ->%catch_log_no_call.
  - (* miss *)
    split.
    { intros _ _. eexists. split; [done|].
      intros u' [[=] | [[=] | []%elem_of_nil]%elem_of_cons]%elem_of_cons. }
    split; [intros; congruence|]. split; [|intros; congruence].
    intros ev [-> | [-> | ->%list_elem_of_singleton]%elem_of_cons]%elem_of_cons;
      intros [=]. split; [done|]. eexists. split; [done|].
    by repeat constructor.
Qed.

Lemma head_then_lookup_then_get_witness :
  ∃ rest,
    new_events warm_world (Worker.images photo_env photo_req warm_world).2 =
      HeadObject "photo.jpg" :: rest ∧
    rest = [CacheMatch "https://img.example/images/photo.jpg"].
Proof.
  destruct (head_then_lookup_then_get photo_env photo_req warm_world
              (Worker.images photo_env photo_req warm_world).2
              (Worker.images photo_env photo_req warm_world).1)
    as (rest & Hnew & _ & _ & _ & Hhit).
  - by destruct (Worker.images photo_env photo_req warm_world).
  - reflexivity.
  - reflexivity.
  - exists rest. split; [exact Hnew|].
    destruct warm_world_cached as [cached Hc].
    by destruct (Hhit _ cached eq_refl eq_refl Hc) as [_ ->].
Defined.

(** ** Failures of the cache *)

(** With the cache down, the request of [photo.jpg], which the bucket holds,
    is answered 500 after the head call and the failed lookup, without a get
    call: the failed lookup is not handled as a miss. *)
Lemma cache_down_is_surfaced :
  (Worker.images cache_down_env photo_req empty_world).1 =
    Resolved (c_text "Internal Server Error" 500) ∧
  new_events empty_world (Worker.images cache_down_env photo_req empty_world).2 =
    [HeadObject "photo.jpg"; CacheMatch "https://img.example/images/photo.jpg";
     ConsoleError (mkError "CacheError")] ∧
  ¬ lookup_failure_is_a_miss cache_down_env photo_req empty_world.
Proof.
  split; [by vm_compute|]. split; [by vm_compute|].
  intros H. specialize (H (mk_is_Some _ _ eq_refl)).
  apply (f_equal (λ o, match o with Resolved r => status r | Rejected _ => 0 end)) in H.
  vm_compute in H. discriminate H.
Qed.

Section CacheFailures.

Variables (env : Worker.Env) (req : Request) (w : World).

(** Whether the store of the entry fails or not, the answer and the calls
    are the same. *)
Lemma put_failure_unobserved :
  (Worker.images env req w).1 = (Worker.images (with_working_put env) req w).1 ∧
  trace (Worker.images env req w).2 =
    trace (Worker.images (with_working_put env) req w).2.
Proof.
  destruct (Worker.validateFilename (param_filename req)) eqn:Hv.
  2: { by rewrite !worker_rejects. }
  destruct (ALLOWED_EXTENSIONS_has (ext_of (param_filename req))) eqn:Ha.
  2: { by rewrite !worker_unsupported. }
  destruct (Worker.head_object env (param_filename req)) as [h|e] eqn:Hhead.
  2: { by rewrite !(worker_head_rejected _ _ _ Hv Ha e). }
  destruct (Worker.cache_match_failure env) as [e|] eqn:Hfail.
  { by rewrite !(worker_lookup_failed _ _ _ Hv Ha h e). }
  destruct (cache w !! url req) as [cached|] eqn:Hc.
  { by rewrite !(worker_hit _ _ _ Hv Ha h cached). }
  destruct (Worker.get_object env (param_filename req)) as [g|e] eqn:Hget.
  2: { by rewrite !(worker_get_rejected _ _ _ Hv Ha h e). }
  destruct (has_metadata h) eqn:Hmeta.
  - by rewrite !(worker_miss _ _ _ Hv Ha h g).
  - by rewrite !(worker_build_failed _ _ _ Hv Ha h g).
Qed.

(** A store that fails leaves the cache as it was. *)
Lemma put_failure_drops_write e :
  Worker.cache_put_failure env = Some e →
  cache (Worker.images env req w).2 = cache w.
Proof.
  intros Hput.
  destruct (worker_run env req w) as (r & w' & -> & Hrun).
  inversion Hrun; subst; try done.
  unfold cache_after_put. simpl. by rewrite Hput.
Qed.

Lemma catch_response_status e :
  status (catch_response e) = 404 ∨ status (catch_response e) = 500.
Proof. unfold catch_response. destruct (String.eqb _ _); simpl; auto. Qed.

End CacheFailures.

(** C2, amended. A failed cache store is never surfaced: the answer and the
    calls are those of a run whose store succeeds, and the cache is left as
    it was.  A failed cache lookup is not handled as a miss: the thrown
    value reaches the [catch] block of the handler, no get call is issued,
    and the request is answered 500 (404 when the thrown value is named
    [NotFound]). *)
Theorem cache_failures (env : Worker.Env) (req : Request) (w : World) :
  (∀ e, Worker.cache_put_failure env = Some e →
     (Worker.images env req w).1 =
       (Worker.images (with_working_put env) req w).1 ∧
     trace (Worker.images env req w).2 =
       trace (Worker.images (with_working_put env) req w).2 ∧
     cache (Worker.images env req w).2 = cache w) ∧
  (∀ h e,
     Worker.validateFilename (param_filename req) = true →
     ALLOWED_EXTENSIONS_has (ext_of (param_filename req)) = true →
     Worker.head_object env (param_filename req) = Resolved h →
     Worker.cache_match_failure env = Some e →
     Worker.images env req w =
       (Resolved (catch_response e),
        after w (cache w)
          (HeadObject (param_filename req) :: CacheMatch (url req) :: catch_log e)) ∧
     catch_response e =
       (if String.eqb (name e) "NotFound"
        then c_text "Image not found" 404
        else c_text "Internal Server Error" 500) ∧
     (status (catch_response e) = 404 ∨ status (catch_response e) = 500) ∧
     GetObject (param_filename req) ∉
       new_events w (Worker.images env req w).2).
Proof.
  split.
  - intros e Hput. destruct (put_failure_unobserved env req w) as [H1 H2].
    repeat split; [done | done | by eapply put_failure_drops_write].
  - intros h e Hv Ha Hhead Hfail.
    rewrite (worker_lookup_failed _ _ _ Hv Ha h e Hhead Hfail).
    repeat split; [apply catch_response_status|].
    simpl. rewrite new_events_after.
    intros [[=] | [[=] | H%catch_log_no_call]%elem_of_cons]%elem_of_cons.
    discriminate H.
Qed.

Lemma cache_failures_witness :
  (Worker.images cache_down_env photo_req empty_world).1 =
    Resolved (c_text "Internal Server Error" 500) ∧
  cache (Worker.images
           (Worker.mkEnv photo_head photo_get None (Some (mkError "CacheError")))
           photo_req empty_world).2 = ∅.
Proof.
  split.
  - destruct (cache_failures cache_down_env photo_req empty_world) as [_ H].
    destruct (H (Worker.mkHead (Some (quoted "abc123")) (Some 12345%N))
                (mkError "CacheError") eq_refl eq_refl eq_refl eq_refl)
      as (-> & _). reflexivity.
  - destruct (cache_failures
                (Worker.mkEnv photo_head photo_get None (Some (mkError "CacheError")))
                photo_req empty_world) as [H _].
    destruct (H (mkError "CacheError") eq_refl) as (_ & _ & ->). reflexivity.
Defined.

(** ** The two handlers without a cache, path by path *)

Section PlainPipeline.

Variables (env : PlainWorker.Env) (req : Request) (w : World).

Hypothesis Hvalid : PlainWorker.validateFilename (param_filename req) = true.
Hypothesis Hallowed : ALLOWED_EXTENSIONS_has (ext_of (param_filename req)) = true.

Lemma plain_run :
  PlainWorker.images env req w =
  match PlainWorker.head_object env (param_filename req) with
  | Rejected e =>
      (Resolved (catch_response e),
       after w (cache w) (HeadObject (param_filename req) :: catch_log e))
  | Resolved h =>
      match PlainWorker.get_object env (param_filename req) with
      | Rejected e =>
          (Resolved (catch_response e),
           after w (cache w)
             (HeadObject (param_filename req) ::
              GetObject (param_filename req) :: catch_log e))
      | Resolved g =>
          if has_metadata h then
            (Resolved (plain_response (ext_of (param_filename req)) h g),
             after w (cache w)
               [HeadObject (param_filename req); GetObject (param_filename req)])
          else
            (Resolved (catch_response TypeError),
             after w (cache w)
               (HeadObject (param_filename req) ::
                GetObject (param_filename req) :: catch_log TypeError))
      end
  end.
Proof.
  unfold PlainWorker.images, try_catch, PlainWorker.s3_send_head,
    PlainWorker.s3_send_get, console_error, settle, emit,
    mbind, mret, M_bind, M_ret.
  rewrite Hvalid, Hallowed. cbn -[c_newResponse insert singletonM fmap].
  destruct (PlainWorker.head_object env _) as [h|e];
    cbn -[c_newResponse insert singletonM fmap].
  - destruct (PlainWorker.get_object env _) as [g|e];
      cbn -[c_newResponse insert singletonM fmap].
    + destruct (has_metadata h) eqn:Hmeta.
      * rewrite (newResponse_plain _ h g Hallowed Hmeta).
        unfold after. cbn. by rewrite <- !app_assoc.
      * rewrite (newResponse_plain_failed _ h g Hallowed Hmeta).
        unfold after. cbn. by rewrite <- !app_assoc.
    + unfold catch_response, catch_log, after.
      destruct (String.eqb (name e) "NotFound"); cbn; by rewrite <- !app_assoc.
  - unfold catch_response, catch_log, after.
    destruct (String.eqb (name e) "NotFound"); cbn; by rewrite <- ?app_assoc.
Qed.

End PlainPipeline.

Section BunPipeline.

Variables (env : BunServer.Env) (req : Request) (w : World).

Hypothesis Hvalid : BunServer.validateFilename (param_filename req) = true.
Hypothesis Hallowed : ALLOWED_EXTENSIONS_has (ext_of (param_filename req)) = true.

Lemma bun_run :
  BunServer.images env req w =
  let f := param_filename req in
  match BunServer.stat_result env f, BunServer.exists_result env f with
  | Resolved st, Resolved true =>
      (Resolved (bun_response (ext_of f) st (BunServer.stream_bytes env f)),
       after w (cache w) [FileStat f; FileExists f; FileStream f])
  | Resolved st, Resolved false =>
      (Resolved (c_text "Image not found" 404),
       after w (cache w) [FileStat f; FileExists f])
  | Rejected e, _ | Resolved _, Rejected e =>
      (Resolved (c_text "Internal Server Error" 500),
       after w (cache w) [FileStat f; FileExists f; ConsoleError e])
  end.
Proof.
  unfold BunServer.images, try_catch, promise_all, BunServer.file_stat,
    BunServer.file_exists, BunServer.file_stream, console_error, settle, emit,
    mbind, mret, M_bind, M_ret.
  rewrite Hvalid, Hallowed. cbn -[c_newResponse insert singletonM fmap].
  unfold after.
  destruct (BunServer.stat_result env _) as [st|e];
    cbn -[c_newResponse insert singletonM fmap];
    [destruct (BunServer.exists_result env _) as [[]|e'];
       cbn -[c_newResponse insert singletonM fmap]|];
    rewrite ?(newResponse_bun _ _ _ Hallowed); cbn;
    by rewrite <- !app_assoc.
Qed.

End BunPipeline.

(** ** Headers of a fetched image *)

Section FetchHeaders.

Implicit Types (ext ct tag : string) (len : N).

Lemma miss_response_headers ext ct tag len g :
  CONTENT_TYPES !! ext = Some ct →
  let r := miss_response ext (Worker.mkHead (Some tag) (Some len)) g in
  carries_fetch_headers r ct tag (JS.toString len) ∧
  Headers_get "X-Cache-Status" r = Some "MISS".
Proof.
  intros Hct. unfold carries_fetch_headers, Headers_get, miss_response.
  cbn [headers Worker.ETag Worker.ContentLength]. rewrite Hct.
  split; [split; [|split; [|split; [|split; [|split]]]]|];
    [by vm_compute .. | eexists; by vm_compute | by vm_compute].
Qed.

Lemma plain_response_headers ext ct tag len g :
  CONTENT_TYPES !! ext = Some ct →
  let r := plain_response ext (Worker.mkHead (Some tag) (Some len)) g in
  Headers_get "Content-Type" r = Some ct ∧
  Headers_get "Cache-Control" r = Some "public, max-age=604800" ∧
  Headers_get "ETag" r = Some (JS.remove_all DQUOTE tag) ∧
  Headers_get "Content-Length" r = Some (JS.toString len) ∧
  Headers_get "X-Content-Type-Options" r = Some "nosniff" ∧
  Headers_get "X-Cache-Status" r = None.
Proof.
  intros Hct. unfold Headers_get, plain_response.
  cbn [headers Worker.ETag Worker.ContentLength]. rewrite Hct.
  split; [|split; [|split; [|split; [|split]]]]; by vm_compute.
Qed.

Lemma bun_response_headers ext ct st bytes :
  CONTENT_TYPES !! ext = Some ct →
  let r := bun_response ext st bytes in
  Headers_get "Content-Type" r = Some ct ∧
  Headers_get "Cache-Control" r = Some "public, max-age=604800" ∧
  Headers_get "ETag" r = Some (BunServer.etag st) ∧
  Headers_get "X-Content-Type-Options" r = Some "nosniff" ∧
  Headers_get "Content-Length" r = None ∧
  Headers_get "X-Cache-Status" r = None.
Proof.
  intros Hct. unfold Headers_get, bun_response. cbn [headers]. rewrite Hct.
  split; [|split; [|split; [|split; [|split]]]]; by vm_compute.
Qed.

Lemma catch_response_not_ok e : status (catch_response e) ≠ 200.
Proof. destruct (catch_response_status e) as [-> | ->]; done. Qed.

(** A 200 of the cached Worker that does not come from the cache is the
    response assembled after the head and get calls. *)
Lemma worker_ok_fetch env req w r w' :
  Worker.images env req w = (Resolved r, w') →
  status r = 200 →
  cache w !! url req = None →
  ALLOWED_EXTENSIONS_has (ext_of (param_filename req)) = true ∧
  ∃ h g, Worker.head_object env (param_filename req) = Resolved h ∧
         Worker.get_object env (param_filename req) = Resolved g ∧
         r = miss_response (ext_of (param_filename req)) h g.
Proof.
  intros (r' & [= <-] & Hrun)%worker_run_inv Hok Hmiss.
  inversion Hrun; subst; try done;
    try (by apply catch_response_not_ok in Hok); [congruence|].
  split; [done|]. by exists h, g.
Qed.

Lemma plain_ok_fetch env req w r w' :
  PlainWorker.images env req w = (Resolved r, w') →
  status r = 200 →
  ALLOWED_EXTENSIONS_has (ext_of (param_filename req)) = true ∧
  ∃ h g, PlainWorker.head_object env (param_filename req) = Resolved h ∧
         PlainWorker.get_object env (param_filename req) = Resolved g ∧
         r = plain_response (ext_of (param_filename req)) h g.
Proof.
  destruct (PlainWorker.validateFilename (param_filename req)) eqn:Hv.
  2: { rewrite plain_rejects by done. by intros [= <- <-]. }
  destruct (ALLOWED_EXTENSIONS_has (ext_of (param_filename req))) eqn:Ha.
  2: { rewrite plain_unsupported by done. by intros [= <- <-]. }
  rewrite plain_run by done.
  destruct (PlainWorker.head_object env _) as [h|e];
    [destruct (PlainWorker.get_object env _) as [g|e];
       [destruct (has_metadata h)|]|];
    intros [= <- <-] Hok; try (by apply catch_response_not_ok in Hok).
  split; [done|]. by exists h, g.
Qed.

(** A fetched 200 is built from head metadata that has a tag and a length:
    without one of them the response constructor throws. *)
Lemma worker_ok_metadata env req w r w' :
  Worker.images env req w = (Resolved r, w') →
  status r = 200 →
  cache w !! url req = None →
  ∃ h tag len, Worker.head_object env (param_filename req) = Resolved h ∧
               Worker.ETag h = Some tag ∧ Worker.ContentLength h = Some len.
Proof.
  intros (r' & [= <-] & Hrun)%worker_run_inv Hok Hmiss.
  inversion Hrun as [| | | | | | |h g Hv Ha Hh Hf Hc Hg Hmeta]; subst;
    try done; try (by apply catch_response_not_ok in Hok); try congruence.
  destruct h as [[tag|] [len|]]; try discriminate Hmeta.
  by exists (Worker.mkHead (Some tag) (Some len)), tag, len.
Qed.

Lemma plain_ok_metadata env req w r w' :
  PlainWorker.images env req w = (Resolved r, w') →
  status r = 200 →
  ∃ h tag len, PlainWorker.head_object env (param_filename req) = Resolved h ∧
               Worker.ETag h = Some tag ∧ Worker.ContentLength h = Some len.
Proof.
  destruct (PlainWorker.validateFilename (param_filename req)) eqn:Hv.
  2: { rewrite plain_rejects by done. by intros [= <- <-]. }
  destruct (ALLOWED_EXTENSIONS_has (ext_of (param_filename req))) eqn:Ha.
  2: { rewrite plain_unsupported by done. by intros [= <- <-]. }
  rewrite plain_run by done.
  destruct (PlainWorker.head_object env _) as [h|e];
    [destruct (PlainWorker.get_object env _) as [g|e];
       [destruct (has_metadata h) eqn:Hmeta|]|];
    intros [= <- <-] Hok; try (by apply catch_response_not_ok in Hok).
  destruct h as [[tag|] [len|]]; try discriminate Hmeta.
  by exists (Worker.mkHead (Some tag) (Some len)), tag, len.
Qed.

Lemma bun_ok_fetch env req w r w' :
  BunServer.images env req w = (Resolved r, w') →
  status r = 200 →
  ALLOWED_EXTENSIONS_has (ext_of (param_filename req)) = true ∧
  ∃ st, BunServer.stat_result env (param_filename req) = Resolved st ∧
        BunServer.exists_result env (param_filename req) = Resolved true ∧
        r = bun_response (ext_of (param_filename req)) st
              (BunServer.stream_bytes env (param_filename req)).
Proof.
  destruct (BunServer.validateFilename (param_filename req)) eqn:Hv.
  2: { rewrite bun_rejects by done. by intros [= <- <-]. }
  destruct (ALLOWED_EXTENSIONS_has (ext_of (param_filename req))) eqn:Ha.
  2: { rewrite bun_unsupported by done. by intros [= <- <-]. }
  rewrite bun_run by done. cbv zeta.
  destruct (BunServer.stat_result env _) as [st|e];
    [destruct (BunServer.exists_result env _) as [[]|e']|];
    intros [= <- <-] Hok; try done.
  split; [done|]. by exists st.
Qed.

End FetchHeaders.

(** The Bun server answers the request of [photo.jpg] with a 200 fetched
    from the store that has neither [Content-Length] nor [X-Cache-Status],
    and whose [ETag] still has the quotes of the store's tag. *)
Lemma bun_fetch_lacks_headers :
  ∃ r, (BunServer.images photo_bun_env photo_req empty_world).1 = Resolved r ∧
       status r = 200 ∧
       Headers_get "Content-Length" r = None ∧
       Headers_get "X-Cache-Status" r = None ∧
       Headers_get "ETag" r = Some (quoted "abc123") ∧
       ∀ ct len, ¬ carries_fetch_headers r ct (quoted "abc123") len.
Proof.
  eexists. split; [by vm_compute|].
  split; [done|]. split; [by vm_compute|]. split; [by vm_compute|].
  split; [by vm_compute|].
  intros ct len (_ & _ & _ & Hlen & _). vm_compute in Hlen. discriminate Hlen.
Qed.

(** C3, amended. Every 200 of the cached Worker that is not served from the
    cache is assembled from a head and a get call that both succeeded, the
    head metadata having a tag and a length, and it carries the six headers:
    [Content-Type] from the table, [Cache-Control: public, max-age=604800],
    [ETag] equal to the tag with its double quotes removed, [Content-Length]
    from the head metadata, the no-sniff flag and [X-Cache-Status: MISS].
    Every 200 of the Worker without a cache carries the first five and no
    [X-Cache-Status].  Every 200 of the Bun server carries [Content-Type],
    [Cache-Control], the no-sniff flag and an [ETag] taken from [stat], and
    neither [Content-Length] nor [X-Cache-Status]. *)
Theorem fetch_headers_by_variant :
  (∀ env req w r w',
     Worker.images env req w = (Resolved r, w') →
     status r = 200 →
     cache w !! url req = None →
     ∃ h g ct tag len,
       Worker.head_object env (param_filename req) = Resolved h ∧
       Worker.ETag h = Some tag ∧
       Worker.ContentLength h = Some len ∧
       Worker.get_object env (param_filename req) = Resolved g ∧
       CONTENT_TYPES !! ext_of (param_filename req) = Some ct ∧
       body r = StreamBody (Worker.Body g) ∧
       carries_fetch_headers r ct tag (JS.toString len) ∧
       Headers_get "X-Cache-Status" r = Some "MISS") ∧
  (∀ env req w r w',
     PlainWorker.images env req w = (Resolved r, w') →
     status r = 200 →
     ∃ h g ct tag len,
       PlainWorker.head_object env (param_filename req) = Resolved h ∧
       Worker.ETag h = Some tag ∧
       Worker.ContentLength h = Some len ∧
       PlainWorker.get_object env (param_filename req) = Resolved g ∧
       CONTENT_TYPES !! ext_of (param_filename req) = Some ct ∧
       body r = StreamBody (Worker.Body g) ∧
       Headers_get "Content-Type" r = Some ct ∧
       Headers_get "Cache-Control" r = Some "public, max-age=604800" ∧
       Headers_get "ETag" r = Some (JS.remove_all DQUOTE tag) ∧
       Headers_get "Content-Length" r = Some (JS.toString len) ∧
       Headers_get "X-Content-Type-Options" r = Some "nosniff" ∧
       Headers_get "X-Cache-Status" r = None) ∧
  (∀ env req w r w',
     BunServer.images env req w = (Resolved r, w') →
     status r = 200 →
     ∃ st ct,
       BunServer.stat_result env (param_filename req) = Resolved st ∧
       CONTENT_TYPES !! ext_of (param_filename req) = Some ct ∧
       body r = StreamBody (BunServer.stream_bytes env (param_filename req)) ∧
       Headers_get "Content-Type" r = Some ct ∧
       Headers_get "Cache-Control" r = Some "public, max-age=604800" ∧
       Headers_get "ETag" r = Some (BunServer.etag st) ∧
       Headers_get "X-Content-Type-Options" r = Some "nosniff" ∧
       Headers_get "Content-Length" r = None ∧
       Headers_get "X-Cache-Status" r = None).
Proof.
  split; [|split].
  - intros env req w r w' Hrun Hok Hmiss.
    destruct (worker_ok_fetch _ _ _ _ _ Hrun Hok Hmiss)
      as (Ha & h & g & Hhead & Hget & Hr).
    destruct (worker_ok_metadata _ _ _ _ _ Hrun Hok Hmiss)
      as (h' & tag & len & Hhead' & Htag & Hlen).
    assert (h' = h) as -> by congruence. subst r.
    destruct (content_type_of_allowed _ Ha) as (ct & Hct & _).
    exists h, g, ct, tag, len. repeat (split; [done|]).
    destruct h as [? ?]. simpl in Htag, Hlen. subst.
    by apply miss_response_headers.
  - intros env req w r w' Hrun Hok.
    destruct (plain_ok_fetch _ _ _ _ _ Hrun Hok)
      as (Ha & h & g & Hhead & Hget & Hr).
    destruct (plain_ok_metadata _ _ _ _ _ Hrun Hok)
      as (h' & tag & len & Hhead' & Htag & Hlen).
    assert (h' = h) as -> by congruence. subst r.
    destruct (content_type_of_allowed _ Ha) as (ct & Hct & _).
    exists h, g, ct, tag, len. repeat (split; [done|]).
    destruct h as [? ?]. simpl in Htag, Hlen. subst.
    by apply plain_response_headers.
  - intros env req w r w' Hrun Hok.
    destruct (bun_ok_fetch _ _ _ _ _ Hrun Hok) as (Ha & st & Hstat & _ & ->).
    destruct (content_type_of_allowed _ Ha) as (ct & Hct & _).
    exists st, ct. repeat (split; [done|]).
    by apply bun_response_headers.
Qed.

Lemma fetch_headers_by_variant_witness :
  ∃ r, (Worker.images photo_env photo_req empty_world).1 = Resolved r ∧
       carries_fetch_headers r "image/jpeg" (quoted "abc123") "12345" ∧
       Headers_get "ETag" r = Some "abc123".
Proof.
  destruct (Worker.images photo_env photo_req empty_world) as [out w'] eqn:Hrun.
  destruct (worker_run_inv _ _ _ _ _ Hrun) as (r & -> & _).
  exists r. split; [reflexivity|].
  destruct fetch_headers_by_variant as (Hworker & _ & _).
  assert (Hok : status r = 200).
  { revert Hrun. vm_compute. by intros [= <- _]. }
  destruct (Hworker photo_env photo_req empty_world r w' Hrun Hok eq_refl)
    as (h & g & ct & tag & len & Hhead & Htag & Hlen & _ & Hct & _ & Hall & _).
  injection Hhead as <-. injection Htag as <-. injection Hlen as <-.
  injection Hct as <-.
  split; [exact Hall|]. apply Hall.
Defined.

(** ** Answers rebuilt from the cache *)

Section FromEntries.

Implicit Types (l : list (string * string)) (k v : string).

Lemma fromEntries_snoc l k v :
  fromEntries (l ++ [(k, v)]) = <[k := v]> (fromEntries l).
Proof. unfold fromEntries. by rewrite foldl_app. Qed.

(** Whatever the object holds came from a pair. *)
Lemma fromEntries_lookup_elem l k v :
  fromEntries l !! k = Some v → (k, v) ∈ l.
Proof.
  induction l as [|[k' v'] l IH] using rev_ind; [done|].
  rewrite fromEntries_snoc, elem_of_app, list_elem_of_singleton.
  destruct (decide (k' = k)) as [->|Hne].
  - rewrite lookup_insert_eq. intros [= ->]. by right.
  - rewrite lookup_insert_ne by done. auto.
Qed.

Lemma fromEntries_lookup_None l k :
  k ∉ l.*1 → fromEntries l !! k = None.
Proof.
  intros Hk. destruct (fromEntries l !! k) as [v|] eqn:E; [|done].
  apply fromEntries_lookup_elem in E. destruct Hk.
  apply list_elem_of_fmap. by exists (k, v).
Qed.

(** A name with a single value keeps it. *)
Lemma fromEntries_lookup_unique l k v :
  (k, v) ∈ l → (∀ v', (k, v') ∈ l → v' = v) →
  fromEntries l !! k = Some v.
Proof.
  induction l as [|[k' v'] l IH] using rev_ind; [by intros ?%elem_of_nil|].
  rewrite fromEntries_snoc. intros Hin Huniq.
  destruct (decide (k' = k)) as [->|Hne].
  - rewrite lookup_insert_eq. f_equal. apply Huniq.
    apply elem_of_app. right. by apply list_elem_of_singleton.
  - rewrite lookup_insert_ne by done. apply IH.
    + apply elem_of_app in Hin as [Hin | Hin%list_elem_of_singleton]; [done|].
      congruence.
    + intros v'' Hv''. apply Huniq, elem_of_app. by left.
Qed.

Lemma NoDup_fst_unique l k v v' :
  NoDup l.*1 → (k, v) ∈ l → (k, v') ∈ l → v' = v.
Proof.
  induction l as [|[k0 v0] l IH]; [by intros _ ?%elem_of_nil|].
  rewrite fmap_cons, NoDup_cons. simpl. intros [Hk0 Hnd].
  rewrite !elem_of_cons.
  intros [E1 | H1] [E2 | H2]; simplify_eq; try done.
  - destruct Hk0. apply list_elem_of_fmap. by exists (k0, v').
  - destruct Hk0. apply list_elem_of_fmap. by exists (k0, v).
  - by apply IH.
Qed.

Lemma fromEntries_lookup_NoDup l k v :
  NoDup l.*1 → (k, v) ∈ l → fromEntries l !! k = Some v.
Proof.
  intros Hnd Hin. apply fromEntries_lookup_unique; [done|].
  intros v' Hv'. by eapply NoDup_fst_unique.
Qed.

End FromEntries.

(** C6. When the cache lookup of a request hits (the name passed validation
    and classification, the head call succeeded and the cache holds an entry
    for the URL), the answer is rebuilt from the cached entry: the status is
    200 whatever the cached status, the body is the cached body, the header
    [x-cache-status] is [HIT], every other header is the cached one with its
    cached value, and no header is added.  When the cached names are in
    lower case, as the iteration of [Headers] yields them, no other spelling
    of [x-cache-status] is left. *)
Theorem hit_rebuilt_from_cache (env : Worker.Env) (req : Request) (w : World)
    (h : Worker.HeadObjectOutput) (cached : CachedResponse)
    (Hvalid : Worker.validateFilename (param_filename req) = true)
    (Hallowed : ALLOWED_EXTENSIONS_has (ext_of (param_filename req)) = true)
    (Hhead : Worker.head_object env (param_filename req) = Resolved h)
    (Hworks : Worker.cache_match_failure env = None)
    (Hhit : cache w !! url req = Some cached) :
  ∃ r w',
    Worker.images env req w = (Resolved r, w') ∧
    status r = 200 ∧
    body r = cached_body cached ∧
    headers r !! "x-cache-status" = Some (Some "HIT") ∧
    (∀ k, k ≠ "x-cache-status" →
       headers r !! k = Some <$> fromEntries (cached_headers cached) !! k) ∧
    (∀ k ov, headers r !! k = Some ov →
       k = "x-cache-status" ∨ ∃ v, ov = Some v ∧ (k, v) ∈ cached_headers cached) ∧
    (NoDup (cached_headers cached).*1 →
     ∀ k v, (k, v) ∈ cached_headers cached → k ≠ "x-cache-status" →
       headers r !! k = Some (Some v)) ∧
    (Forall (λ kv, JS.toLowerCase kv.1 = kv.1) (cached_headers cached) →
     ∀ k, JS.toLowerCase k = "x-cache-status" → k ≠ "x-cache-status" →
       headers r !! k = None).
Proof.
  eexists _, _. split; [by eapply worker_hit|].
  unfold hit_response. cbn [status body headers].
  assert (Hother : ∀ k, k ≠ "x-cache-status" →
    (Some <$> <["x-cache-status" := "HIT"]> (fromEntries (cached_headers cached)))
      !! k = Some <$> fromEntries (cached_headers cached) !! k).
  { intros k Hk. by rewrite lookup_fmap, lookup_insert_ne. }
  repeat split.
  - by rewrite lookup_fmap, lookup_insert_eq.
  - done.
  - intros k ov Hk. destruct (decide (k = "x-cache-status")) as [->|Hne]; [by left|].
    right. rewrite Hother in Hk by done.
    destruct (fromEntries (cached_headers cached) !! k) as [v|] eqn:E; [|done].
    injection Hk as <-. exists v. split; [done|]. by apply fromEntries_lookup_elem.
  - intros Hnd k v Hin Hk. rewrite Hother by done.
    by rewrite (fromEntries_lookup_NoDup _ _ _ Hnd Hin).
  - intros Hlower k Hk Hne. rewrite Hother by done.
    rewrite fromEntries_lookup_None; [done|].
    intros ((k' & v) & -> & Hin)%list_elem_of_fmap.
    eapply Forall_forall in Hlower; [|exact Hin].
    simpl in *. congruence.
Qed.

Lemma hit_rebuilt_from_cache_witness :
  ∃ r, (Worker.images photo_env photo_req warm_world).1 = Resolved r ∧
       status r = 200 ∧
       body r = StreamBody photo_bytes ∧
       headers r !! "x-cache-status" = Some (Some "HIT") ∧
       headers r !! "etag" = Some (Some "abc123").
Proof.
  destruct warm_world_cached as [cached Hc].
  destruct (hit_rebuilt_from_cache photo_env photo_req warm_world
              (Worker.mkHead (Some (quoted "abc123")) (Some 12345%N)) cached
              eq_refl eq_refl eq_refl eq_refl Hc)
    as (r & w' & Hrun & Hst & Hbody & Hx & Hother & _).
  exists r. rewrite Hrun. split; [reflexivity|]. split; [exact Hst|].
  assert (Hcached : cached = snapshot
            (miss_response ".jpg"
               (Worker.mkHead (Some (quoted "abc123")) (Some 12345%N))
               (Worker.mkGet photo_bytes))).
  { revert Hc. vm_compute. by intros [= <-]. }
  split; [by rewrite Hbody, Hcached|]. split; [exact Hx|].
  rewrite Hother by discriminate. rewrite Hcached. by vm_compute.
Defined.

(** ** Missing objects *)

Lemma not_found_text : not_found_answer (c_text "Image not found" 404).
Proof. repeat split. Qed.

Lemma catch_response_not_found e :
  name e = "NotFound" → catch_response e = c_text "Image not found" 404 ∧ catch_log e = [].
Proof. intros H. unfold catch_response, catch_log. by rewrite H. Qed.

(** In the Bun server the 404 needs [stat] to resolve: [Promise.all] waits
    for both calls, and a [stat] that rejects ends in the 500 of the [catch]
    block whatever [exists] answers. *)
Lemma bun_stat_rejected env req w e :
  BunServer.validateFilename (param_filename req) = true →
  ALLOWED_EXTENSIONS_has (ext_of (param_filename req)) = true →
  BunServer.stat_result env (param_filename req) = Rejected e →
  (BunServer.images env req w).1 = Resolved (c_text "Internal Server Error" 500).
Proof. intros Hv Ha Hstat. rewrite bun_run by done. cbv zeta. by rewrite Hstat. Qed.

(** C7. For a filename that passes validation and whose extension is
    allow-listed, when the store holds no such object: in the two Workers
    the head call throws [NotFound] and the request is answered 404 with the
    body [Image not found] and without any header of the handler, hence
    without [ETag], and no get call is made.  The Bun server does not answer
    so: for a missing object [stat] rejects, [Promise.all] rejects with it
    before the test of [exists] is reached, and the request is answered with
    the 500 of the [catch] block, although [exists] answers false.  Its 404
    is given only when [stat] resolves. *)
Theorem missing_object_by_variant :
  (∀ env req w e,
     Worker.validateFilename (param_filename req) = true →
     ALLOWED_EXTENSIONS_has (ext_of (param_filename req)) = true →
     Worker.head_object env (param_filename req) = Rejected e →
     name e = "NotFound" →
     ∃ r, Worker.images env req w =
            (Resolved r, after w (cache w) [HeadObject (param_filename req)]) ∧
          not_found_answer r) ∧
  (∀ env req w e,
     PlainWorker.validateFilename (param_filename req) = true →
     ALLOWED_EXTENSIONS_has (ext_of (param_filename req)) = true →
     PlainWorker.head_object env (param_filename req) = Rejected e →
     name e = "NotFound" →
     ∃ r, PlainWorker.images env req w =
            (Resolved r, after w (cache w) [HeadObject (param_filename req)]) ∧
          not_found_answer r) ∧
  (∀ env req w e,
     BunServer.validateFilename (param_filename req) = true →
     ALLOWED_EXTENSIONS_has (ext_of (param_filename req)) = true →
     BunServer.stat_result env (param_filename req) = Rejected e →
     BunServer.exists_result env (param_filename req) = Resolved false →
     ∃ r, BunServer.images env req w =
            (Resolved r,
             after w (cache w)
               [FileStat (param_filename req); FileExists (param_filename req);
                ConsoleError e]) ∧
          r = c_text "Internal Server Error" 500 ∧
          ¬ not_found_answer r) ∧
  (∀ env req w r w',
     BunServer.images env req w = (Resolved r, w') →
     status r = 404 →
     ∃ st, BunServer.stat_result env (param_filename req) = Resolved st).
Proof.
  split; [|split; [|split]].
  - intros env req w e Hv Ha Hhead Hname.
    destruct (catch_response_not_found e Hname) as [Hr Hlog].
    exists (c_text "Image not found" 404). split; [|apply not_found_text].
    by rewrite (worker_head_rejected _ _ _ Hv Ha e Hhead), Hr, Hlog.
  - intros env req w e Hv Ha Hhead Hname.
    destruct (catch_response_not_found e Hname) as [Hr Hlog].
    exists (c_text "Image not found" 404). split; [|apply not_found_text].
    by rewrite (plain_run _ _ _ Hv Ha), Hhead, Hr, Hlog.
  - intros env req w e Hv Ha Hstat Hex.
    exists (c_text "Internal Server Error" 500).
    split; [|split; [done|]].
    + rewrite (bun_run _ _ _ Hv Ha). cbv zeta. by rewrite Hstat.
    + by intros [[=] _].
  - intros env req w r w' Hrun H404.
    destruct (BunServer.validateFilename (param_filename req)) eqn:Hv.
    2: { rewrite bun_rejects in Hrun by done. by injection Hrun as <- _. }
    destruct (ALLOWED_EXTENSIONS_has (ext_of (param_filename req))) eqn:Ha.
    2: { rewrite bun_unsupported in Hrun by done. by injection Hrun as <- _. }
    rewrite bun_run in Hrun by done. cbv zeta in Hrun.
    destruct (BunServer.stat_result env _) as [st|e]; [by exists st|].
    by injection Hrun as <- _.
Qed.

Lemma missing_object_by_variant_witness :
  (∃ r, (Worker.images photo_env missing_req empty_world).1 = Resolved r ∧
        not_found_answer r) ∧
  (∃ r, (PlainWorker.images photo_plain_env missing_req empty_world).1 = Resolved r ∧
        not_found_answer r) ∧
  (BunServer.images photo_bun_env missing_req empty_world).1 =
    Resolved (c_text "Internal Server Error" 500).
Proof.
  destruct missing_object_by_variant as (Hworker & Hplain & Hbun & _).
  split; [|split].
  - destruct (Hworker photo_env missing_req empty_world (mkError "NotFound")
                eq_refl eq_refl eq_refl eq_refl) as (r & -> & Hr).
    by exists r.
  - destruct (Hplain photo_plain_env missing_req empty_world (mkError "NotFound")
                eq_refl eq_refl eq_refl eq_refl) as (r & -> & Hr).
    by exists r.
  - destruct (Hbun photo_bun_env missing_req empty_world (mkError "S3Error")
                eq_refl eq_refl eq_refl eq_refl) as (r & -> & -> & _).
    reflexivity.
Defined.

(** ** Content types of the 200 answers *)

Section ContentTypes.

Implicit Types (h : gmap string (option string)) (k v ct : string).

Lemma lower_char_idem (c : ascii) :
  JS.lower_char (JS.lower_char c) = JS.lower_char c.
Proof. destruct c as [[] [] [] [] [] [] [] []]; reflexivity. Qed.

Lemma toLowerCase_idem (s : string) :
  JS.toLowerCase (JS.toLowerCase s) = JS.toLowerCase s.
Proof. induction s as [|c s IH]; simpl; [done|]. by rewrite lower_char_idem, IH. Qed.

Lemma elem_of_Headers_entries h k v :
  (k, v) ∈ Headers_entries h ↔
  ∃ k', JS.toLowerCase k' = k ∧ h !! k' = Some (Some v).
Proof.
  unfold Headers_entries. rewrite list_elem_of_omap. split.
  - intros ([k' [v'|]] & Hin%elem_of_map_to_list & Hf); simplify_eq/=.
    by exists k'.
  - intros (k' & <- & Hk'). exists (k', Some v).
    split; [by apply elem_of_map_to_list | done].
Qed.

Lemma Headers_entries_lower h :
  Forall (λ kv, JS.toLowerCase kv.1 = kv.1) (Headers_entries h).
Proof.
  apply Forall_forall. intros [k v] (k' & <- & _)%elem_of_Headers_entries.
  apply toLowerCase_idem.
Qed.

(** A header whose name has no other spelling among the headers is found
    under its name, whatever the case. *)
Lemma Headers_get_unique (r : Response) k v :
  headers r !! k = Some (Some v) →
  (∀ k', JS.toLowerCase k' = JS.toLowerCase k →
         is_Some (headers r !! k') → k' = k) →
  Headers_get k r = Some v.
Proof.
  intros Hk Huniq. unfold Headers_get.
  apply fromEntries_lookup_unique.
  - apply elem_of_Headers_entries. by exists k.
  - intros v' (k' & Hlow & Hk')%elem_of_Headers_entries.
    rewrite (Huniq k' Hlow) in Hk' by done. congruence.
Qed.

(** The table holds the four image types, one for each allowed extension
    at least, and nothing else. *)
Lemma image_types_are_the_table ct :
  ct ∈ IMAGE_TYPES ↔
  ∃ ext, ALLOWED_EXTENSIONS_has ext = true ∧ CONTENT_TYPES !! ext = Some ct.
Proof.
  split.
  - unfold IMAGE_TYPES. rewrite !elem_of_cons, elem_of_nil.
    intros [-> | [-> | [-> | [-> | []]]]];
      [by exists ".jpg" | by exists ".png" | by exists ".gif" | by exists ".webp"].
  - intros (ext & Ha & Hct).
    destruct (content_type_of_allowed _ Ha) as (ct' & Hct' & Hin). congruence.
Qed.

Lemma miss_response_content_type ext hd g ct :
  CONTENT_TYPES !! ext = Some ct →
  Headers_get "Content-Type" (miss_response ext hd g) = Some ct.
Proof.
  intros Hct. unfold Headers_get, miss_response. cbn [headers]. rewrite Hct.
  destruct hd as [[tag|] [len|]]; by vm_compute.
Qed.

Lemma plain_response_content_type ext hd g ct :
  CONTENT_TYPES !! ext = Some ct →
  Headers_get "Content-Type" (plain_response ext hd g) = Some ct.
Proof.
  intros Hct. unfold Headers_get, plain_response. cbn [headers]. rewrite Hct.
  destruct hd as [[tag|] [len|]]; by vm_compute.
Qed.

(** The answer rebuilt from an entry has the content type of the entry. *)
Lemma hit_response_content_type (e : CachedResponse) ct :
  Forall (λ kv, JS.toLowerCase kv.1 = kv.1) (cached_headers e) →
  fromEntries (cached_headers e) !! "content-type" = Some ct →
  Headers_get "Content-Type" (hit_response e) = Some ct.
Proof.
  intros Hlower Hct.
  change (Headers_get "Content-Type" (hit_response e))
    with (Headers_get "content-type" (hit_response e)).
  apply Headers_get_unique; unfold hit_response; cbn [headers].
  - by rewrite lookup_fmap, lookup_insert_ne, Hct.
  - intros k' Hk' [ov Hov].
    rewrite lookup_fmap in Hov.
    destruct (decide (k' = "x-cache-status")) as [->|Hne]; [discriminate Hk'|].
    rewrite lookup_insert_ne in Hov by done.
    destruct (fromEntries (cached_headers e) !! k') as [v|] eqn:E; [|done].
    apply fromEntries_lookup_elem in E.
    eapply Forall_forall in Hlower; [|exact E]. simpl in Hlower.
    by rewrite <- Hlower, Hk'.
Qed.

(** One request keeps the cache well-formed, and its 200 has a content
    type of the table. *)
Lemma worker_step_ok env req w r w' :
  cache_ok (cache w) →
  Worker.images env req w = (Resolved r, w') →
  cache_ok (cache w') ∧
  (status r = 200 →
   ALLOWED_EXTENSIONS_has (ext_of (param_filename req)) = true ∧
   ∃ ct, Headers_get "Content-Type" r = Some ct ∧ ct ∈ IMAGE_TYPES).
Proof.
  intros Hok (r' & [= <-] & Hrun)%worker_run_inv.
  inversion Hrun; subst; cbn [after cache];
    try (split; [done | by intros ?%catch_response_not_ok]);
    try (split; [done | by intros [=]]).
  - (* hit *)
    split; [done|]. intros _. split; [done|].
    destruct (Hok _ _ H3) as (Hlower & ct & Hct & Hin).
    exists ct. split; [|done]. by apply hit_response_content_type.
  - (* miss *)
    destruct (content_type_of_allowed _ H0) as (ct & Hct & Hin).
    pose proof (miss_response_content_type _ h g _ Hct) as Hget.
    split.
    + unfold cache_after_put. destruct (Worker.cache_put_failure env); [done|].
      intros u e. destruct (decide (url req = u)) as [<-|Hne].
      * rewrite lookup_insert_eq. intros [= <-]. split.
        -- apply Headers_entries_lower.
        -- exists ct. split; [exact Hget | exact Hin].
      * rewrite lookup_insert_ne by done. apply Hok.
    + intros _. split; [done|]. exists ct. split; [exact Hget | exact Hin].
Qed.

Lemma serve_ok jobs w req r :
  cache_ok (cache w) →
  (req, r) ∈ (Worker.serve jobs w).1 →
  status r = 200 →
  ALLOWED_EXTENSIONS_has (ext_of (param_filename req)) = true ∧
  ∃ ct, Headers_get "Content-Type" r = Some ct ∧ ct ∈ IMAGE_TYPES.
Proof.
  revert w. induction jobs as [|[env req'] jobs IH]; intros w Hok.
  - by intros ?%elem_of_nil.
  - simpl. destruct (worker_run env req' w) as (r' & w' & Heq & _).
    rewrite Heq. destruct (worker_step_ok _ _ _ _ _ Hok Heq) as [Hok' Hr'].
    destruct (Worker.serve jobs w') as [rs w''] eqn:Hrest. simpl.
    intros [[= -> ->] | Hin]%elem_of_cons; [done|].
    apply (IH w'); [done|]. by rewrite Hrest.
Qed.

End ContentTypes.

Lemma empty_cache_ok : cache_ok ∅.
Proof. intros u e H. by rewrite lookup_empty in H. Qed.

(** C9. Over any sequence of requests served by the cached Worker from a
    cache whose entries carry a content type of the table (the empty cache
    for one), and for every request of the two other handlers, a 200 is
    given only when the filename has a dot and the text from its last dot
    on, lower-cased, is one of the five allowed extensions, and it carries a
    [Content-Type] among [image/jpeg], [image/png], [image/gif] and
    [image/webp], which are exactly the values of the [CONTENT_TYPES] table;
    outside the cache the type is the entry of the table for that suffix.
    The extension the handlers compute is that suffix: a dot followed by the
    lower-cased text after the last dot of the name. *)
Theorem ok_answers_carry_image_type :
  (∀ jobs w req r,
     cache_ok (cache w) →
     (req, r) ∈ (Worker.serve jobs w).1 →
     status r = 200 →
     ALLOWED_EXTENSIONS_has (ext_of (param_filename req)) = true ∧
     (∃ ct, Headers_get "Content-Type" r = Some ct ∧ ct ∈ IMAGE_TYPES) ∧
     ∃ suf, last_dot_suffix (param_filename req) suf ∧
            ALLOWED_EXTENSIONS_has ("." +:+ JS.toLowerCase suf) = true) ∧
  (∀ env req w r w',
     Worker.images env req w = (Resolved r, w') →
     status r = 200 → cache w !! url req = None →
     Headers_get "Content-Type" r = CONTENT_TYPES !! ext_of (param_filename req) ∧
     ∃ suf, last_dot_suffix (param_filename req) suf ∧
            Headers_get "Content-Type" r =
              CONTENT_TYPES !! ("." +:+ JS.toLowerCase suf)) ∧
  (∀ env req w r w',
     PlainWorker.images env req w = (Resolved r, w') →
     status r = 200 →
     ALLOWED_EXTENSIONS_has (ext_of (param_filename req)) = true ∧
     (∃ ct, Headers_get "Content-Type" r = Some ct ∧ ct ∈ IMAGE_TYPES ∧
            CONTENT_TYPES !! ext_of (param_filename req) = Some ct) ∧
     ∃ suf, last_dot_suffix (param_filename req) suf ∧
            ALLOWED_EXTENSIONS_has ("." +:+ JS.toLowerCase suf) = true ∧
            Headers_get "Content-Type" r =
              CONTENT_TYPES !! ("." +:+ JS.toLowerCase suf)) ∧
  (∀ env req w r w',
     BunServer.images env req w = (Resolved r, w') →
     status r = 200 →
     ALLOWED_EXTENSIONS_has (ext_of (param_filename req)) = true ∧
     (∃ ct, Headers_get "Content-Type" r = Some ct ∧ ct ∈ IMAGE_TYPES ∧
            CONTENT_TYPES !! ext_of (param_filename req) = Some ct) ∧
     ∃ suf, last_dot_suffix (param_filename req) suf ∧
            ALLOWED_EXTENSIONS_has ("." +:+ JS.toLowerCase suf) = true ∧
            Headers_get "Content-Type" r =
              CONTENT_TYPES !! ("." +:+ JS.toLowerCase suf)) ∧
  (∀ filename suf,
     last_dot_suffix filename suf →
     ext_of filename = "." +:+ JS.toLowerCase suf) ∧
  (∀ ext, ALLOWED_EXTENSIONS_has ext = true ↔
          ext = ".jpg" ∨ ext = ".jpeg" ∨ ext = ".png" ∨ ext = ".gif" ∨ ext = ".webp") ∧
  (∀ ct, ct ∈ IMAGE_TYPES ↔
         ∃ ext, ALLOWED_EXTENSIONS_has ext = true ∧ CONTENT_TYPES !! ext = Some ct).
Proof.
  split; [|split; [|split; [|split; [|split; [|split]]]]].
  - intros jobs w req r Hcache Hin Hok.
    destruct (serve_ok _ _ _ _ Hcache Hin Hok) as [Ha Hct].
    split; [exact Ha|]. split; [exact Hct|].
    destruct (allowed_suffix _ Ha) as (suf & Hsuf & Hext).
    exists suf. split; [exact Hsuf|]. by rewrite <- Hext.
  - intros env req w r w' Hrun Hok Hmiss.
    destruct (worker_ok_fetch _ _ _ _ _ Hrun Hok Hmiss) as (Ha & h & g & _ & _ & ->).
    destruct (content_type_of_allowed _ Ha) as (ct & Hct & _).
    destruct (allowed_suffix _ Ha) as (suf & Hsuf & Hext).
    assert (Hget : Headers_get "Content-Type"
                     (miss_response (ext_of (param_filename req)) h g) =
                   CONTENT_TYPES !! ext_of (param_filename req)).
    { rewrite Hct. by apply miss_response_content_type. }
    split; [exact Hget|]. exists suf. split; [exact Hsuf|]. by rewrite <- Hext.
  - intros env req w r w' Hrun Hok.
    destruct (plain_ok_fetch _ _ _ _ _ Hrun Hok) as (Ha & h & g & _ & _ & ->).
    destruct (content_type_of_allowed _ Ha) as (ct & Hct & Hin).
    destruct (allowed_suffix _ Ha) as (suf & Hsuf & Hext).
    pose proof (plain_response_content_type _ h g _ Hct) as Hget.
    split; [exact Ha|]. split.
    + exists ct. split; [exact Hget | by split].
    + exists suf. split; [exact Hsuf|]. rewrite <- Hext.
      split; [exact Ha|]. by rewrite Hct.
  - intros env req w r w' Hrun Hok.
    destruct (bun_ok_fetch _ _ _ _ _ Hrun Hok) as (Ha & st & _ & _ & ->).
    destruct (content_type_of_allowed _ Ha) as (ct & Hct & Hin).
    destruct (allowed_suffix _ Ha) as (suf & Hsuf & Hext).
    destruct (bun_response_headers _ _ st
                (BunServer.stream_bytes env (param_filename req)) Hct)
      as (Hget & _).
    split; [exact Ha|]. split.
    + exists ct. split; [exact Hget | by split].
    + exists suf. split; [exact Hsuf|]. rewrite <- Hext.
      split; [exact Ha|]. by rewrite Hct.
  - intros filename suf (pre & -> & Hsuf). by apply ext_of_dotted.
  - apply allowed_extension_cases.
  - apply image_types_are_the_table.
Qed.

Lemma ok_answers_carry_image_type_witness :
  cache_ok (cache empty_world) ∧
  ∃ ct,
    Headers_get "Content-Type"
      (hit_response
         (snapshot
            (miss_response ".jpg"
               (Worker.mkHead (Some (quoted "abc123")) (Some 12345%N))
               (Worker.mkGet photo_bytes)))) = Some ct ∧
    ct ∈ IMAGE_TYPES.
Proof.
  split; [exact empty_cache_ok|].
  destruct ok_answers_carry_image_type as (Hserve & _).
  refine (proj1 (proj2 (Hserve [(photo_env, photo_req); (photo_env, photo_req)]
                          empty_world photo_req _ empty_cache_ok _ _))).
  - apply list_elem_of_In. vm_compute. right. left. reflexivity.
  - reflexivity.
Defined.

(** ** Further properties of the validator, the classifier and the pipeline *)

Section MoreStringFacts.

Implicit Types (s t pre suf needle : string) (c : ascii).

Lemma prefix_split needle s :
  String.prefix needle s = true → ∃ t, s = needle +:+ t.
Proof.
  revert s. induction needle as [|a needle IH]; intros s H.
  - by exists s.
  - destruct s as [|b s]; [done|]. simpl in H.
    destruct (ascii_dec a b) as [->|]; [|done].
    destruct (IH _ H) as [t ->]. by exists t.
Qed.

(** [includes] finds exactly the strings that have the needle inside. *)
Lemma includes_iff needle s :
  JS.includes needle s = true ↔ ∃ a b, s = a +:+ needle +:+ b.
Proof.
  split.
  - induction s as [|x s IH]; cbn [JS.includes]; intros H.
    + apply orb_true_iff in H as [H|H]; [|done].
      apply prefix_split in H as [t ->]. by exists "", t.
    + apply orb_true_iff in H as [H|H].
      * apply prefix_split in H as [t ->]. by exists "", t.
      * destruct (IH H) as (a & b & ->). by exists (String x a), b.
  - intros (a & b & ->). apply includes_infix.
Qed.

Lemma has_dotdot_iff s :
  has_dotdot s = false ↔ ∀ a b, s ≠ a +:+ ".." +:+ b.
Proof.
  rewrite <- includes_dotdot. split.
  - intros H a b ->. by rewrite includes_infix in H.
  - intros H. apply not_true_is_false. intros (a & b & ->)%includes_iff.
    by eapply H.
Qed.

Lemma toLowerCase_append s t :
  JS.toLowerCase (s +:+ t) = JS.toLowerCase s +:+ JS.toLowerCase t.
Proof.
  induction s as [|a s IH]; [done|].
  change (String a s +:+ t) with (String a (s +:+ t)). simpl. by rewrite IH.
Qed.

Lemma lower_char_dot c : Ascii.eqb (JS.lower_char c) "." = Ascii.eqb c ".".
Proof. destruct c as [[] [] [] [] [] [] [] []]; reflexivity. Qed.

Lemma lastIndexOf_from_lower s i found :
  JS.lastIndexOf_from "." (JS.toLowerCase s) i found =
  JS.lastIndexOf_from "." s i found.
Proof.
  revert i found. induction s as [|a s IH]; intros i found; simpl; [done|].
  by rewrite lower_char_dot, IH.
Qed.

Lemma drop_lower n s : JS.drop n (JS.toLowerCase s) = JS.toLowerCase (JS.drop n s).
Proof.
  revert s. induction n as [|n IH]; intros [|a s]; simpl; auto.
Qed.

Lemma slice_lower s i : JS.slice (JS.toLowerCase s) i = JS.toLowerCase (JS.slice s i).
Proof. unfold JS.slice, JS.length. rewrite toLowerCase_length. apply drop_lower. Qed.

End MoreStringFacts.

(** X1. The validator of each file accepts exactly the safe names: a name
    is accepted if and only if it has 1 to 256 characters, each of
    [[A-Za-z0-9_\-.]], no two dots in a row and at most nine dots.  Nothing
    else is rejected: a leading dot or hyphen, a trailing dot or a name
    without extension pass the validator. *)
Theorem accepted_iff_safe (s : string) :
  (Worker.validateFilename s = true ↔ safe_name s) ∧
  (PlainWorker.validateFilename s = true ↔ safe_name s) ∧
  (BunServer.validateFilename s = true ↔ safe_name s).
Proof.
  assert (H : validate_reference s = true ↔ safe_name s).
  { unfold safe_name. split.
    - intros (Hlen & Hall & Hdd & Hdots)%validate_reference_true.
      split; [done|]. split.
      + intros c Hc%list_elem_of_In. eapply Forall_forall in Hall; eauto.
      + split; [by apply has_dotdot_iff | done].
    - intros ([Hlo Hhi] & Hall & Hdd & Hdots). unfold validate_reference.
      apply Nat.leb_le in Hlo, Hhi, Hdots. apply has_dotdot_iff in Hdd.
      rewrite Hlo, Hhi, Hdd, Hdots. simpl. rewrite !andb_true_r.
      by apply forallb_forall. }
  by rewrite worker_validate_reference, plain_validate_reference,
    bun_validate_reference.
Qed.

Lemma split_last_token c pre suf :
  count_char c suf = O →
  ∃ f fs, JS.split c (pre +:+ String c suf) = (f :: fs) ++ [suf].
Proof.
  intros Hsuf. induction pre as [|a pre (f & fs & IH)].
  - change ("" +:+ String c suf) with (String c suf). simpl.
    rewrite Ascii.eqb_refl, split_token by done. by exists "", [].
  - change (String a pre +:+ String c suf)
      with (String a (pre +:+ String c suf)).
    cbn [JS.split]. rewrite IH. destruct (Ascii.eqb a c).
    + by exists "", (f :: fs).
    + by exists (String a f), fs.
Qed.

(** X2. For a name with a dot, the extension the classifier computes is a
    dot followed by the lower-cased text after the last dot of the name, and
    that text is the last of the tokens [split('.')] yields: whatever comes
    before the last dot plays no part. *)
Theorem extension_is_last_token (pre suf : string)
    (Hsuf : ¬ In "."%char (list_ascii_of_string suf)) :
  ext_of (pre +:+ "." +:+ suf) = "." +:+ JS.toLowerCase suf ∧
  last (JS.split "." (pre +:+ "." +:+ suf)) = Some suf.
Proof.
  split; [by apply ext_of_dotted|].
  apply count_char_absent in Hsuf.
  change ("." +:+ suf) with (String "."%char suf).
  destruct (split_last_token "." pre suf Hsuf) as (f & fs & ->).
  apply last_snoc.
Qed.

Lemma extension_is_last_token_witness :
  ext_of "evil.php.JPG" = ".jpg" ∧ last (JS.split "." "evil.php.JPG") = Some "JPG".
Proof.
  apply (extension_is_last_token "evil.php" "JPG").
  simpl. intros [H | [H | [H | []]]]; discriminate H.
Defined.

(** X3. The classifier ignores case: a name and its lower-cased form get
    the same extension, the extension has no upper-case letter left, and so
    both get the same allow-list verdict and the same content type. *)
Theorem classifier_ignores_case (s : string) :
  ext_of (JS.toLowerCase s) = ext_of s ∧
  JS.toLowerCase (ext_of s) = ext_of s ∧
  ALLOWED_EXTENSIONS_has (ext_of (JS.toLowerCase s)) = ALLOWED_EXTENSIONS_has (ext_of s) ∧
  CONTENT_TYPES !! ext_of (JS.toLowerCase s) = CONTENT_TYPES !! ext_of s.
Proof.
  assert (H : ext_of (JS.toLowerCase s) = ext_of s).
  { unfold ext_of, JS.lastIndexOf.
    by rewrite lastIndexOf_from_lower, slice_lower, toLowerCase_idem. }
  rewrite H. repeat split. apply toLowerCase_idem.
Qed.

Section Runs.

Lemma plain_run_total env req w :
  ∃ r evs, PlainWorker.images env req w = (Resolved r, after w (cache w) evs) ∧
           PlainRun env req r evs.
Proof.
  assert (Hw : after w (cache w) [] = w).
  { destruct w. unfold after. simpl. by rewrite app_nil_r. }
  destruct (PlainWorker.validateFilename (param_filename req)) eqn:Hv.
  2: { eexists _, []. rewrite Hw. split; [by apply plain_rejects | by constructor]. }
  destruct (ALLOWED_EXTENSIONS_has (ext_of (param_filename req))) eqn:Ha.
  2: { eexists _, []. rewrite Hw. split; [by apply plain_unsupported | by constructor]. }
  rewrite plain_run by done.
  destruct (PlainWorker.head_object env _) as [h|e] eqn:Hh;
    [destruct (PlainWorker.get_object env _) as [g|e] eqn:Hg;
       [destruct (has_metadata h) eqn:Hmeta|]|];
    eexists _, _;
    (split; [reflexivity | by first [eapply PlainBuildFailed | econstructor]]).
Qed.

Lemma bun_run_total env req w :
  ∃ r evs, BunServer.images env req w = (Resolved r, after w (cache w) evs) ∧
           BunRun env req r evs.
Proof.
  assert (Hw : after w (cache w) [] = w).
  { destruct w. unfold after. simpl. by rewrite app_nil_r. }
  destruct (BunServer.validateFilename (param_filename req)) eqn:Hv.
  2: { eexists _, []. rewrite Hw. split; [by apply bun_rejects | by constructor]. }
  destruct (ALLOWED_EXTENSIONS_has (ext_of (param_filename req))) eqn:Ha.
  2: { eexists _, []. rewrite Hw. split; [by apply bun_unsupported | by constructor]. }
  rewrite bun_run by done. cbv zeta.
  destruct (BunServer.stat_result env _) as [st|e] eqn:Hs;
    [destruct (BunServer.exists_result env _) as [[]|e] eqn:He|];
    eexists _, _; (split; [reflexivity | by econstructor]).
Qed.

Lemma plain_run_inv env req w out w' :
  PlainWorker.images env req w = (out, w') →
  ∃ r evs, out = Resolved r ∧ w' = after w (cache w) evs ∧ PlainRun env req r evs.
Proof.
  destruct (plain_run_total env req w) as (r & evs & -> & Hrun).
  intros [= <- <-]. eauto.
Qed.

Lemma bun_run_inv env req w out w' :
  BunServer.images env req w = (out, w') →
  ∃ r evs, out = Resolved r ∧ w' = after w (cache w) evs ∧ BunRun env req r evs.
Proof.
  destruct (bun_run_total env req w) as (r & evs & -> & Hrun).
  intros [= <- <-]. eauto.
Qed.

Lemma catch_response_error e : error_answer (catch_response e).
Proof.
  unfold catch_response. destruct (String.eqb _ _); (split; [done|]); auto.
Qed.

Lemma c_text_error_400 : error_answer (c_text "Invalid filename format" 400).
Proof. split; [done|]. auto. Qed.
Lemma c_text_error_415 : error_answer (c_text "Unsupported file type" 415).
Proof. split; [done|]. auto. Qed.
Lemma c_text_error_404 : error_answer (c_text "Image not found" 404).
Proof. split; [done|]. auto 6. Qed.
Lemma c_text_error_500 : error_answer (c_text "Internal Server Error" 500).
Proof. split; [done|]. auto 6. Qed.

End Runs.

(** X4. Each of the three handlers always answers: no thrown value escapes
    the handler, and the answer is a 200 or one of the four plain-text
    errors (400, 415, 404 and 500, each with its fixed text), which carry no
    header of the handler. *)
Theorem handlers_always_answer :
  (∀ env req w, ∃ r w',
     Worker.images env req w = (Resolved r, w') ∧
     (status r = 200 ∨ error_answer r)) ∧
  (∀ env req w, ∃ r w',
     PlainWorker.images env req w = (Resolved r, w') ∧
     (status r = 200 ∨ error_answer r)) ∧
  (∀ env req w, ∃ r w',
     BunServer.images env req w = (Resolved r, w') ∧
     (status r = 200 ∨ error_answer r)).
Proof.
  split; [|split]; intros env req w.
  - destruct (worker_run env req w) as (r & w' & Heq & Hrun).
    exists r, w'. split; [done|].
    inversion Hrun; subst;
      auto using catch_response_error, c_text_error_400, c_text_error_415.
  - destruct (plain_run_total env req w) as (r & evs & Heq & Hrun).
    eexists r, _. split; [done|].
    inversion Hrun; subst;
      auto using catch_response_error, c_text_error_400, c_text_error_415.
  - destruct (bun_run_total env req w) as (r & evs & Heq & Hrun).
    eexists r, _. split; [done|].
    inversion Hrun; subst;
      auto using c_text_error_400, c_text_error_415, c_text_error_404,
        c_text_error_500.
Qed.

Lemma catch_log_key e ev : ev ∈ catch_log e → store_key ev = None ∧ cache_key ev = None.
Proof. by intros ->%catch_log_no_call. Qed.

Ltac event_cases H :=
  repeat (apply elem_of_cons in H as [-> | H]);
  try (apply catch_log_no_call in H as ->);
  try (by apply elem_of_nil in H).

(** X5. A handler calls its collaborators only for a name that passed the
    validator and whose extension is allow-listed; every call to the store
    is made with the filename of the request as key, unchanged, and every
    call to the cache with the URL of the request. *)
Theorem calls_only_for_classified_names :
  (∀ env req w out w' ev,
     Worker.images env req w = (out, w') →
     ev ∈ new_events w w' →
     Worker.validateFilename (param_filename req) = true ∧
     ALLOWED_EXTENSIONS_has (ext_of (param_filename req)) = true ∧
     (∀ k, store_key ev = Some k → k = param_filename req) ∧
     (∀ k, cache_key ev = Some k → k = url req)) ∧
  (∀ env req w out w' ev,
     PlainWorker.images env req w = (out, w') →
     ev ∈ new_events w w' →
     PlainWorker.validateFilename (param_filename req) = true ∧
     ALLOWED_EXTENSIONS_has (ext_of (param_filename req)) = true ∧
     (∀ k, store_key ev = Some k → k = param_filename req) ∧
     cache_key ev = None) ∧
  (∀ env req w out w' ev,
     BunServer.images env req w = (out, w') →
     ev ∈ new_events w w' →
     BunServer.validateFilename (param_filename req) = true ∧
     ALLOWED_EXTENSIONS_has (ext_of (param_filename req)) = true ∧
     (∀ k, store_key ev = Some k → k = param_filename req) ∧
     cache_key ev = None).
Proof.
  split; [|split].
  - intros env req w out w' ev (r & -> & Hrun)%worker_run_inv Hev.
    inversion Hrun; subst; try rewrite new_events_after in Hev.
    1,2: unfold new_events in Hev; rewrite drop_all in Hev;
         by apply elem_of_nil in Hev.
    all: split; [done|]; split; [done|].
    all: event_cases Hev; split; intros k [=]; done.
  - intros env req w out w' ev (r & evs & -> & -> & Hrun)%plain_run_inv Hev.
    rewrite new_events_after in Hev.
    inversion Hrun; subst; try (by apply elem_of_nil in Hev).
    all: split; [done|]; split; [done|].
    all: event_cases Hev; split; try done; intros k [=]; done.
  - intros env req w out w' ev (r & evs & -> & -> & Hrun)%bun_run_inv Hev.
    rewrite new_events_after in Hev.
    inversion Hrun; subst; try (by apply elem_of_nil in Hev).
    all: split; [done|]; split; [done|].
    all: event_cases Hev; split; try done; intros k [=]; done.
Qed.

Lemma miss_response_status ext h g :
  status (miss_response ext h g) = 200 ∧
  headers (miss_response ext h g) !! "X-Cache-Status" = Some (Some "MISS").
Proof. split; [done|]. unfold miss_response. cbn [headers]. by simplify_map_eq. Qed.

(** X6. The cached Worker writes the cache only when it answers a 200
    fetched from the store: the entry written is the one of that answer
    (marked MISS), under the URL of the request, which had no entry before.
    Errors and hits write nothing, an entry is never replaced, and entries
    of other URLs are never touched.  The two other handlers never touch
    the cache. *)
Theorem cache_written_only_by_fresh_200 :
  (∀ env req w r w',
     Worker.images env req w = (Resolved r, w') →
     (cache w' = cache w ∨
      status r = 200 ∧
      headers r !! "X-Cache-Status" = Some (Some "MISS") ∧
      cache w !! url req = None ∧
      Worker.cache_put_failure env = None ∧
      cache w' = <[url req := snapshot r]> (cache w)) ∧
     (∀ u', u' ≠ url req → cache w' !! u' = cache w !! u') ∧
     (∀ e, cache w !! url req = Some e → cache w' !! url req = Some e)) ∧
  (∀ env req w out w',
     PlainWorker.images env req w = (out, w') → cache w' = cache w) ∧
  (∀ env req w out w',
     BunServer.images env req w = (out, w') → cache w' = cache w).
Proof.
  split; [|split].
  - intros env req w r w' (r' & [= <-] & Hrun)%worker_run_inv.
    inversion Hrun; subst; cbn [after cache]; try (by auto).
    unfold cache_after_put.
    destruct (Worker.cache_put_failure env) as [e|] eqn:Hput; [by auto|].
    split; [|split].
    + right. by destruct (miss_response_status (ext_of (param_filename req)) h g).
    + intros u' Hu'. by rewrite lookup_insert_ne.
    + intros e He. congruence.
  - by intros env req w out w' (r & evs & -> & -> & _)%plain_run_inv.
  - by intros env req w out w' (r & evs & -> & -> & _)%bun_run_inv.
Qed.

Section RoundTrip.

Implicit Types (m : gmap string string) (r : Response).

(** Iterating the headers built from an object with lower-case names gives
    the object back. *)
Lemma fromEntries_Headers_entries m :
  (∀ k v, m !! k = Some v → JS.toLowerCase k = k) →
  fromEntries (Headers_entries (Some <$> m)) = m.
Proof.
  intros Hlower. apply map_eq. intros k.
  destruct (m !! k) as [v|] eqn:Hk.
  - apply fromEntries_lookup_unique.
    + apply elem_of_Headers_entries. exists k.
      split; [by eapply Hlower|]. by rewrite lookup_fmap, Hk.
    + intros v' (k' & Hk' & Hv')%elem_of_Headers_entries.
      rewrite lookup_fmap in Hv'.
      destruct (m !! k') as [v''|] eqn:E; simplify_eq/=.
      rewrite (Hlower _ _ E) in Hk. congruence.
  - apply fromEntries_lookup_None.
    intros ([k0 v] & -> & (k' & Hk' & Hv')%elem_of_Headers_entries)%list_elem_of_fmap.
    rewrite lookup_fmap in Hv'.
    destruct (m !! k') as [v''|] eqn:E; simplify_eq/=.
    rewrite (Hlower _ _ E) in Hk. congruence.
Qed.

Lemma fromEntries_keys_lower (l : list (string * string)) k v :
  Forall (λ kv, JS.toLowerCase kv.1 = kv.1) l →
  fromEntries l !! k = Some v → JS.toLowerCase k = k.
Proof.
  intros Hl Hk%fromEntries_lookup_elem.
  eapply Forall_forall in Hl; [|exact Hk]. done.
Qed.

(** What the answer rebuilt from an entry shows, the names of the entry
    being in lower case: HIT as cache status, and the entry's own value for
    any other name. *)
Lemma Headers_get_hit (entry : CachedResponse) nm :
  Forall (λ kv, JS.toLowerCase kv.1 = kv.1) (cached_headers entry) →
  Headers_get nm (hit_response entry) =
  if decide (JS.toLowerCase nm = "x-cache-status") then Some "HIT"
  else fromEntries (cached_headers entry) !! JS.toLowerCase nm.
Proof.
  intros Hlower. unfold Headers_get, hit_response. cbn [headers].
  rewrite fromEntries_Headers_entries.
  - case_decide as Hnm.
    + by rewrite Hnm, lookup_insert_eq.
    + by rewrite lookup_insert_ne.
  - intros k v. destruct (decide (k = "x-cache-status")) as [->|Hne]; [done|].
    rewrite lookup_insert_ne by done. by apply fromEntries_keys_lower.
Qed.

(** A fetched 200 is marked MISS. *)
Lemma fetched_marked_miss env req w r w' :
  Worker.images env req w = (Resolved r, w') →
  status r = 200 → cache w !! url req = None →
  Headers_get "X-Cache-Status" r = Some "MISS".
Proof.
  intros Hrun Hok Hmiss.
  destruct (worker_ok_fetch _ _ _ _ _ Hrun Hok Hmiss) as (Ha & h & g & _ & _ & ->).
  destruct (content_type_of_allowed _ Ha) as (ct & Hct & _).
  unfold Headers_get, miss_response. cbn [headers]. rewrite Hct.
  destruct h as [[tag|] [len|]]; by vm_compute.
Qed.

End RoundTrip.

(** X7. After a 200 fetched from the store, if a later lookup of the same
    URL gives back an entry that has the body of that answer and, among its
    headers, those the answer was stored with (the cache may have added
    headers of its own; header names come back in lower case, each once),
    then a request whose head call succeeds and whose lookup works is
    answered from the cache, whatever the store then holds: status 200, the
    same body, [X-Cache-Status] turned from MISS to HIT and every other
    header of the first answer with the same value; the run makes the head
    call and the lookup only and leaves the cache as it is. *)
Theorem repeat_request_is_hit (env1 env2 : Worker.Env) (req : Request)
    (w w1 w2 : World) (r1 : Response) (h2 : Worker.HeadObjectOutput)
    (entry : CachedResponse)
    (Hfirst : Worker.images env1 req w = (Resolved r1, w1))
    (Hok : status r1 = 200)
    (Hmiss : cache w !! url req = None)
    (Hlater : cache w2 !! url req = Some entry)
    (Hbody : cached_body entry = body r1)
    (Hkept : ∀ kv, kv ∈ Headers_entries (headers r1) → kv ∈ cached_headers entry)
    (Hlower : Forall (λ kv, JS.toLowerCase kv.1 = kv.1) (cached_headers entry))
    (Honce : NoDup (cached_headers entry).*1)
    (Hhead : Worker.head_object env2 (param_filename req) = Resolved h2)
    (Hworks : Worker.cache_match_failure env2 = None) :
  ∃ r2 w3,
    Worker.images env2 req w2 = (Resolved r2, w3) ∧
    status r2 = 200 ∧
    body r2 = body r1 ∧
    Headers_get "X-Cache-Status" r1 = Some "MISS" ∧
    Headers_get "X-Cache-Status" r2 = Some "HIT" ∧
    (∀ nm v, JS.toLowerCase nm ≠ "x-cache-status" →
             Headers_get nm r1 = Some v → Headers_get nm r2 = Some v) ∧
    new_events w2 w3 = [HeadObject (param_filename req); CacheMatch (url req)] ∧
    cache w3 = cache w2.
Proof.
  destruct (worker_ok_fetch _ _ _ _ _ Hfirst Hok Hmiss) as (Ha & _).
  assert (Hv : Worker.validateFilename (param_filename req) = true).
  { destruct (Worker.validateFilename (param_filename req)) eqn:E; [done|].
    rewrite worker_rejects in Hfirst by done. by injection Hfirst as <- _. }
  exists (hit_response entry), (after w2 (cache w2)
            [HeadObject (param_filename req); CacheMatch (url req)]).
  split; [by eapply worker_hit|].
  rewrite new_events_after.
  split; [done|]. split; [exact Hbody|].
  split; [by eapply fetched_marked_miss|].
  split; [by rewrite Headers_get_hit|].
  split; [|done].
  intros nm v Hnm Hget. rewrite Headers_get_hit by done.
  case_decide; [done|].
  apply fromEntries_lookup_NoDup; [done|].
  apply Hkept. by apply fromEntries_lookup_elem.
Qed.

(** What the cache of the model gives back right after a successful store
    is such an entry. *)
Lemma stored_entry_kept env req w r w' :
  Worker.images env req w = (Resolved r, w') →
  status r = 200 → cache w !! url req = None →
  Worker.cache_put_failure env = None →
  cache w' !! url req = Some (snapshot r).
Proof.
  intros (r' & [= <-] & Hrun)%worker_run_inv Hok Hmiss Hput.
  inversion Hrun; subst;
    try (by apply catch_response_not_ok in Hok); try done; try congruence.
  cbn [after cache]. unfold cache_after_put. rewrite Hput.
  apply lookup_insert_eq.
Qed.

Lemma catch_cases e :
  status (catch_response e) = 404 ∧ catch_log e = [] ∧ name e = "NotFound" ∨
  status (catch_response e) = 500 ∧ catch_log e = [ConsoleError e] ∧
    name e ≠ "NotFound".
Proof.
  unfold catch_response, catch_log.
  destruct (String.eqb (name e) "NotFound") eqn:E.
  - left. by apply String.eqb_eq in E.
  - right. by apply String.eqb_neq in E.
Qed.

(** X9. A handler logs exactly when it answers 500, and then exactly one
    line, which carries the value thrown by the call that failed: in the
    two Workers the first call that failed (head call, cache lookup, get
    call or response constructor), a value never named [NotFound]; in the
    Bun server [stat] or [exists].  Every other answer logs nothing. *)
Theorem every_500_is_logged_once :
  (∀ env req w r w',
     Worker.images env req w = (Resolved r, w') →
     status r = 500 ∧
       (∃ e, logged (new_events w w') = [ConsoleError e] ∧
             name e ≠ "NotFound" ∧ worker_thrown env req w e) ∨
     status r ≠ 500 ∧ logged (new_events w w') = []) ∧
  (∀ env req w r w',
     PlainWorker.images env req w = (Resolved r, w') →
     status r = 500 ∧
       (∃ e, logged (new_events w w') = [ConsoleError e] ∧
             name e ≠ "NotFound" ∧ plain_thrown env req e) ∨
     status r ≠ 500 ∧ logged (new_events w w') = []) ∧
  (∀ env req w r w',
     BunServer.images env req w = (Resolved r, w') →
     status r = 500 ∧
       (∃ e, logged (new_events w w') = [ConsoleError e] ∧
             bun_thrown env req e) ∨
     status r ≠ 500 ∧ logged (new_events w w') = []).
Proof.
  split; [|split].
  - intros env req w r w' (r' & [= <-] & Hrun)%worker_run_inv.
    inversion Hrun; subst; try rewrite new_events_after;
      try (right; split; [done|]; unfold new_events; by rewrite drop_all);
      try (right; by split).
    + destruct (catch_cases e) as [(Hs & -> & _) | (Hs & -> & Hn)];
        rewrite Hs; [right; by split|].
      left. split; [done|]. exists e. repeat split; try done. by left.
    + destruct (catch_cases e) as [(Hs & -> & _) | (Hs & -> & Hn)];
        rewrite Hs; [right; by split|].
      left. split; [done|]. exists e. repeat split; try done.
      right. exists h. split; [done|]. by left.
    + destruct (catch_cases e) as [(Hs & -> & _) | (Hs & -> & Hn)];
        rewrite Hs; [right; by split|].
      left. split; [done|]. exists e. repeat split; try done.
      right. exists h. split; [done|]. right. repeat split; try done. by left.
    + left. split; [done|]. exists TypeError. repeat split; try done.
      right. exists h. split; [done|]. right. repeat split; try done.
      right. by exists g.
  - intros env req w r w' (r' & evs & [= <-] & -> & Hrun)%plain_run_inv.
    rewrite new_events_after.
    inversion Hrun; subst; try (right; by split).
    + destruct (catch_cases e) as [(Hs & -> & _) | (Hs & -> & Hn)];
        rewrite Hs; [right; by split|].
      left. split; [done|]. exists e. repeat split; try done. by left.
    + destruct (catch_cases e) as [(Hs & -> & _) | (Hs & -> & Hn)];
        rewrite Hs; [right; by split|].
      left. split; [done|]. exists e. repeat split; try done.
      right. exists h. split; [done|]. by left.
    + left. split; [done|]. exists TypeError. repeat split; try done.
      right. exists h. split; [done|]. right. by exists g.
  - intros env req w r w' (r' & evs & [= <-] & -> & Hrun)%bun_run_inv.
    rewrite new_events_after.
    inversion Hrun; subst; try (right; by split).
    + left. split; [done|]. exists e. split; [done|]. by left.
    + left. split; [done|]. exists e. split; [done|]. by right.
Qed.

Lemma miss_is_plain_plus_status ext h g :
  headers (miss_response ext h g) =
  <["X-Cache-Status" := Some "MISS"]> (headers (plain_response ext h g)).
Proof.
  unfold miss_response, plain_response. cbn [headers].
  apply map_eq. intros k.
  destruct (decide (k = "X-Cache-Status")) as [->|H1]; [by vm_compute|].
  destruct (decide (k = "Content-Type")) as [->|H2]; [by vm_compute|].
  destruct (decide (k = "Cache-Control")) as [->|H3]; [by vm_compute|].
  destruct (decide (k = "ETag")) as [->|H4]; [by vm_compute|].
  destruct (decide (k = "Content-Length")) as [->|H5]; [by vm_compute|].
  destruct (decide (k = "X-Content-Type-Options")) as [->|H6]; [by vm_compute|].
  rewrite !lookup_insert_ne by done. by rewrite !lookup_singleton_ne.
Qed.

(** X10. On a cache miss with a working lookup, the cached Worker answers
    as the Worker without a cache does over the same store: same status and
    body, the same answer altogether when it is an error, and for a 200 the
    same headers with [X-Cache-Status: MISS] added; both make the same calls
    to the store and log the same lines. *)
Theorem miss_answers_as_plain_worker (env : Worker.Env) (req : Request) (w : World)
    (Hworks : Worker.cache_match_failure env = None)
    (Hmiss : cache w !! url req = None) :
  ∃ rw ww rp wp,
    Worker.images env req w = (Resolved rw, ww) ∧
    PlainWorker.images (plain_of env) req w = (Resolved rp, wp) ∧
    status rw = status rp ∧
    body rw = body rp ∧
    (status rp = 200 →
       headers rw = <["X-Cache-Status" := Some "MISS"]> (headers rp)) ∧
    (status rp ≠ 200 → rw = rp) ∧
    store_calls (new_events w ww) = store_calls (new_events w wp) ∧
    logged (new_events w ww) = logged (new_events w wp).
Proof.
  destruct (worker_run env req w) as (rw & ww & Hw & Hrw).
  destruct (plain_run_total (plain_of env) req w) as (rp & evs & Hp & Hrp).
  exists rw, ww, rp, (after w (cache w) evs). split; [done|]. split; [done|].
  rewrite new_events_after.
  assert (Hval : PlainWorker.validateFilename (param_filename req) =
                 Worker.validateFilename (param_filename req)).
  { by rewrite plain_validate_reference, worker_validate_reference. }
  inversion Hrw; subst; try rewrite new_events_after;
    inversion Hrp; subst; simpl in *; try congruence.
  - unfold new_events. rewrite drop_all. by repeat split.
  - unfold new_events. rewrite drop_all. by repeat split.
  - assert (e0 = e) as -> by congruence.
    repeat split; try done. by intros ?%catch_response_not_ok.
  - assert (e0 = e) as -> by congruence.
    repeat split; try done. by intros ?%catch_response_not_ok.
  - by repeat split.
  - assert (h0 = h) as -> by congruence. assert (g0 = g) as -> by congruence.
    repeat split; try done; intros _; apply miss_is_plain_plus_status.
Qed.

Lemma remove_all_absent c s :
  ¬ In c (list_ascii_of_string (JS.remove_all c s)).
Proof.
  induction s as [|a s IH]; simpl; [tauto|].
  destruct (Ascii.eqb a c) eqn:E; [done|].
  apply Ascii.eqb_neq in E. simpl. tauto.
Qed.

Lemma remove_all_id c s :
  ¬ In c (list_ascii_of_string s) → JS.remove_all c s = s.
Proof.
  induction s as [|a s IH]; simpl; [done|]. intros H.
  destruct (Ascii.eqb a c) eqn:E.
  - apply Ascii.eqb_eq in E. tauto.
  - rewrite IH; [done|]. tauto.
Qed.

Lemma miss_response_etag ext h g :
  Headers_get "ETag" (miss_response ext h g) =
  JS.remove_all DQUOTE <$> Worker.ETag h.
Proof.
  unfold Headers_get, miss_response. cbn [headers].
  destruct (CONTENT_TYPES !! ext), h as [[tag|] [len|]]; by vm_compute.
Qed.

Lemma plain_response_etag ext h g :
  Headers_get "ETag" (plain_response ext h g) =
  JS.remove_all DQUOTE <$> Worker.ETag h.
Proof.
  unfold Headers_get, plain_response. cbn [headers].
  destruct (CONTENT_TYPES !! ext), h as [[tag|] [len|]]; by vm_compute.
Qed.

(** X11. The [ETag] header of a 200 that one of the two Workers fetched
    from the store never holds a double quote: it is the tag of the head
    metadata with every double quote removed, hence the tag itself when the
    tag has none. *)
Theorem fetched_etag_has_no_quote :
  (∀ env req w r w' t,
     Worker.images env req w = (Resolved r, w') →
     status r = 200 → cache w !! url req = None →
     Headers_get "ETag" r = Some t →
     ¬ In DQUOTE (list_ascii_of_string t) ∧
     ∃ h tag, Worker.head_object env (param_filename req) = Resolved h ∧
              Worker.ETag h = Some tag ∧ t = JS.remove_all DQUOTE tag ∧
              (¬ In DQUOTE (list_ascii_of_string tag) → t = tag)) ∧
  (∀ env req w r w' t,
     PlainWorker.images env req w = (Resolved r, w') →
     status r = 200 →
     Headers_get "ETag" r = Some t →
     ¬ In DQUOTE (list_ascii_of_string t) ∧
     ∃ h tag, PlainWorker.head_object env (param_filename req) = Resolved h ∧
              Worker.ETag h = Some tag ∧ t = JS.remove_all DQUOTE tag ∧
              (¬ In DQUOTE (list_ascii_of_string tag) → t = tag)).
Proof.
  split.
  - intros env req w r w' t Hrun Hok Hmiss Ht.
    destruct (worker_ok_fetch _ _ _ _ _ Hrun Hok Hmiss) as (_ & h & g & Hh & _ & ->).
    rewrite miss_response_etag in Ht.
    destruct (Worker.ETag h) as [tag|] eqn:Htag; [|done]. injection Ht as <-.
    split; [apply remove_all_absent|].
    exists h, tag. repeat split; try done. intros H. by apply remove_all_id.
  - intros env req w r w' t Hrun Hok Ht.
    destruct (plain_ok_fetch _ _ _ _ _ Hrun Hok) as (_ & h & g & Hh & _ & ->).
    rewrite plain_response_etag in Ht.
    destruct (Worker.ETag h) as [tag|] eqn:Htag; [|done]. injection Ht as <-.
    split; [apply remove_all_absent|].
    exists h, tag. repeat split; try done. intros H. by apply remove_all_id.
Qed.


(** X13. For a name that passed validation and classification the Bun
    server always issues [stat] and then [exists], in this order, and opens
    the stream of the file exactly when it answers 200: after them comes the
    stream call alone, or no stream call at all. *)
Theorem bun_store_calls (env : BunServer.Env) (req : Request) (w w' : World)
    (r : Response)
    (Hrun : BunServer.images env req w = (Resolved r, w'))
    (Hvalid : BunServer.validateFilename (param_filename req) = true)
    (Hallowed : ALLOWED_EXTENSIONS_has (ext_of (param_filename req)) = true) :
  ∃ rest,
    new_events w w' =
      FileStat (param_filename req) :: FileExists (param_filename req) :: rest ∧
    (status r = 200 ↔ rest = [FileStream (param_filename req)]) ∧
    (status r ≠ 200 → ∀ k, FileStream k ∉ rest).
Proof.
  apply bun_run_inv in Hrun as (r' & evs & [= <-] & -> & Hrun).
  rewrite new_events_after.
  inversion Hrun; subst; try congruence; eexists; (split; [reflexivity|]).
  - split; [split; [done | intros [=]]|].
    intros _ k [[=] | []%elem_of_nil]%elem_of_cons.
  - split; [split; [done | intros [=]]|].
    intros _ k [[=] | []%elem_of_nil]%elem_of_cons.
  - split; [split; [done | intros [=]]|]. by intros _ k ?%elem_of_nil.
  - split; [done|]. done.
Qed.

(** X8. When the cache store of a fetched answer fails, the cache is left
    without the entry, and a later request of the same URL, over a store
    whose head call gives a tag and a length and whose get call succeeds, is
    fetched from the store again, with a head and a get call. *)
Theorem failed_put_means_miss_again (env1 env2 : Worker.Env) (req : Request)
    (w w1 : World) (out1 : Outcome Response) (e : Error)
    (h : Worker.HeadObjectOutput) (g : Worker.GetObjectOutput)
    (tag : string) (len : N)
    (Hvalid : Worker.validateFilename (param_filename req) = true)
    (Hallowed : ALLOWED_EXTENSIONS_has (ext_of (param_filename req)) = true)
    (Hfirst : Worker.images env1 req w = (out1, w1))
    (Hmiss : cache w !! url req = None)
    (Hput : Worker.cache_put_failure env1 = Some e)
    (Hhead : Worker.head_object env2 (param_filename req) = Resolved h)
    (Htag : Worker.ETag h = Some tag)
    (Hlen : Worker.ContentLength h = Some len)
    (Hworks : Worker.cache_match_failure env2 = None)
    (Hget : Worker.get_object env2 (param_filename req) = Resolved g) :
  cache w1 = cache w ∧
  ∃ w2,
    Worker.images env2 req w1 =
      (Resolved (miss_response (ext_of (param_filename req)) h g), w2) ∧
    store_calls (new_events w1 w2) =
      [HeadObject (param_filename req); GetObject (param_filename req)].
Proof.
  assert (Hc : cache w1 = cache w).
  { pose proof (put_failure_drops_write env1 req w e Hput) as H.
    by rewrite Hfirst in H. }
  split; [done|].
  eexists. split.
  - apply worker_miss; try done; [by rewrite Hc|].
    unfold has_metadata. by rewrite Htag, Hlen.
  - by rewrite new_events_after.
Qed.

Lemma failed_put_means_miss_again_witness :
  ∃ w2, Worker.images photo_env photo_req
          (Worker.images put_down_env photo_req empty_world).2 =
        (Resolved (miss_response ".jpg" photo_meta (Worker.mkGet photo_bytes)), w2).
Proof.
  destruct (failed_put_means_miss_again put_down_env photo_env photo_req
              empty_world (Worker.images put_down_env photo_req empty_world).2
              (Worker.images put_down_env photo_req empty_world).1
              (mkError "CacheError") photo_meta (Worker.mkGet photo_bytes)
              (quoted "abc123") 12345%N eq_refl eq_refl)
    as (_ & w2 & Hrun & _); try reflexivity.
  exists w2. exact Hrun.
Defined.

(** X14. For a name with a dot, the extension is allow-listed if and only
    if the text after the last dot, lower-cased, is one of [jpg], [jpeg],
    [png], [gif] and [webp]; the table then gives [image/jpeg] for the first
    two and [image/png], [image/gif], [image/webp] for the others, and it
    has no entry for any other suffix. *)
Theorem suffix_decides_type (pre suf : string)
    (Hsuf : ¬ In "."%char (list_ascii_of_string suf)) :
  (ALLOWED_EXTENSIONS_has (ext_of (pre +:+ "." +:+ suf)) = true ↔
   JS.toLowerCase suf ∈ IMAGE_SUFFIXES) ∧
  CONTENT_TYPES !! ext_of (pre +:+ "." +:+ suf) =
    (if decide (JS.toLowerCase suf ∈ ["jpg"; "jpeg"]) then Some "image/jpeg"
     else if decide (JS.toLowerCase suf = "png") then Some "image/png"
     else if decide (JS.toLowerCase suf = "gif") then Some "image/gif"
     else if decide (JS.toLowerCase suf = "webp") then Some "image/webp"
     else None).
Proof.
  rewrite (ext_of_dotted pre suf Hsuf).
  generalize (JS.toLowerCase suf). intros x.
  change ("." +:+ x) with (String "."%char x). split.
  - rewrite allowed_extension_cases. unfold IMAGE_SUFFIXES.
    rewrite !elem_of_cons, elem_of_nil.
    split; intros H; repeat (destruct H as [H|H]); simplify_eq; tauto.
  - repeat case_decide; simplify_eq; try reflexivity.
    + rewrite !elem_of_cons, elem_of_nil in H.
      destruct H as [-> | [-> | []]]; reflexivity.
    + destruct (CONTENT_TYPES !! String "." x) as [ct|] eqn:E; [|done].
      exfalso. unfold CONTENT_TYPES in E.
      rewrite !elem_of_cons, elem_of_nil in H.
      repeat (rewrite lookup_insert in E; case_decide; [simplify_eq; tauto|]).
      rewrite lookup_singleton in E. case_decide; [|done].
      simplify_eq.
Qed.

Lemma suffix_decides_type_witness :
  ALLOWED_EXTENSIONS_has (ext_of "archive.tar.GIF") = true ∧
  CONTENT_TYPES !! ext_of "archive.tar.GIF" = Some "image/gif".
Proof.
  assert (Hsuf : ¬ In "."%char (list_ascii_of_string "GIF")).
  { simpl. intros [H | [H | [H | []]]]; discriminate H. }
  destruct (suffix_decides_type "archive.tar" "GIF" Hsuf) as [Hiff Hct].
  split; [|exact Hct]. apply Hiff. unfold IMAGE_SUFFIXES. simpl.
  rewrite !elem_of_cons. tauto.
Defined.

Lemma photo_first_run :
  Worker.images photo_env photo_req empty_world =
  (Resolved photo_response, (Worker.images photo_env photo_req empty_world).2).
Proof. by vm_compute. Qed.

Lemma calls_only_for_classified_names_witness :
  Worker.validateFilename (param_filename photo_req) = true ∧
  ALLOWED_EXTENSIONS_has (ext_of (param_filename photo_req)) = true.
Proof.
  destruct calls_only_for_classified_names as (Hworker & _).
  destruct (Hworker photo_env photo_req empty_world _ _ (HeadObject "photo.jpg")
              photo_first_run) as (Hv & Ha & _).
  - apply list_elem_of_In. vm_compute. left. reflexivity.
  - by split.
Defined.

Lemma cache_written_only_by_fresh_200_witness :
  cache (Worker.images photo_env photo_req empty_world).2
    !! "https://img.example/images/other.png" = None.
Proof.
  destruct cache_written_only_by_fresh_200 as (Hworker & _).
  destruct (Hworker photo_env photo_req empty_world _ _ photo_first_run)
    as (_ & Hother & _).
  rewrite Hother; [reflexivity | discriminate].
Defined.

Lemma repeat_request_is_hit_witness :
  ∃ r2 w3,
    Worker.images photo_env photo_req photo_later_world = (Resolved r2, w3) ∧
    body r2 = StreamBody photo_bytes ∧
    Headers_get "ETag" r2 = Some "abc123".
Proof.
  destruct (repeat_request_is_hit photo_env photo_env photo_req empty_world
              (Worker.images photo_env photo_req empty_world).2
              photo_later_world photo_response photo_meta photo_entry
              photo_first_run eq_refl eq_refl eq_refl eq_refl)
    as (r2 & w3 & Hrun & _ & Hbody & _ & _ & Hsame & _).
  - intros kv Hkv. unfold photo_entry. cbn [cached_headers].
    apply elem_of_app. by left.
  - apply (bool_decide_unpack _). by vm_compute.
  - apply (bool_decide_unpack _). by vm_compute.
  - reflexivity.
  - reflexivity.
  - exists r2, w3. split; [exact Hrun|]. split; [exact Hbody|].
    apply (Hsame "ETag" "abc123"); [discriminate|]. by vm_compute.
Defined.

Lemma every_500_is_logged_once_witness :
  logged (new_events empty_world
            (Worker.images cache_down_env photo_req empty_world).2) =
  [ConsoleError (mkError "CacheError")].
Proof.
  destruct every_500_is_logged_once as (Hworker & _).
  destruct (Hworker cache_down_env photo_req empty_world
              (c_text "Internal Server Error" 500)
              (Worker.images cache_down_env photo_req empty_world).2)
    as [(_ & e & Hlog & _ & _) | (Hne & _)].
  - by vm_compute.
  - rewrite Hlog. revert Hlog. vm_compute. by intros [= <-].
  - by destruct Hne.
Defined.

Lemma miss_answers_as_plain_worker_witness :
  ∃ rw rp,
    (Worker.images photo_env photo_req empty_world).1 = Resolved rw ∧
    (PlainWorker.images (plain_of photo_env) photo_req empty_world).1 = Resolved rp ∧
    headers rw = <["X-Cache-Status" := Some "MISS"]> (headers rp).
Proof.
  destruct (miss_answers_as_plain_worker photo_env photo_req empty_world
              eq_refl eq_refl)
    as (rw & ww & rp & wp & Hw & Hp & _ & _ & Hh & _).
  exists rw, rp. rewrite Hw, Hp. split; [reflexivity|]. split; [reflexivity|].
  apply Hh. revert Hp. vm_compute. by intros [= <- _].
Defined.

Lemma fetched_etag_has_no_quote_witness :
  ¬ In DQUOTE (list_ascii_of_string "abc123").
Proof.
  destruct fetched_etag_has_no_quote as (Hworker & _).
  destruct (Hworker photo_env photo_req empty_world _ _ "abc123"
              photo_first_run eq_refl eq_refl) as [Hno _].
  - by vm_compute.
  - exact Hno.
Defined.


Lemma bun_store_calls_witness :
  ∃ rest,
    new_events empty_world
      (BunServer.images photo_bun_env photo_req empty_world).2 =
    FileStat "photo.jpg" :: FileExists "photo.jpg" :: rest.
Proof.
  destruct (bun_store_calls photo_bun_env photo_req empty_world
              (BunServer.images photo_bun_env photo_req empty_world).2
              (bun_response ".jpg" (BunServer.mkStats (quoted "abc123")) photo_bytes))
    as (rest & Hnew & _).
  - by vm_compute.
  - reflexivity.
  - reflexivity.
  - by exists rest.
Defined.
